(** * Vulture game library: lifecycle and membership coordinator

    A shallow embedding of [packages/vulture-lib/src/game.ts]: the
    functions [upgradeCredentials], [createGame], [joinGame], [leaveGame],
    [startGame], [stopGame], [restartGame] and [deleteGame], together with
    the part of the MongoDB driver, of [jsonwebtoken] and of the
    EventBridge scheduler client that those functions call.

    Every [async] function of the source becomes a computation in the
    monad [M]: a function from the world (both collections, the id
    generator, the clock, the driver's sessions, the scheduler) to a
    result and a new world.  A rejected promise or a thrown exception is
    the result [Throw e]; the effects performed before the throw stay in
    the world, as they do in the source. *)

From stdpp Require Import base decidable option list strings gmap.
From Stdlib Require Import ZArith Lia.

Open Scope Z_scope.

(** ** Data model ([types.ts], as used by [game.ts] and by the tests) *)

(** A BSON ObjectId.  [new ObjectId()] draws from a generator that never
    repeats a value; the generator is the counter [nextId] of the world. *)
Abbreviation ObjectId := positive.

(** A string handed in as an id: either the 24 hex digits of an ObjectId
    ([Hex id], what [id.toString()] returns) or something that
    [new ObjectId(raw)] rejects. *)
Inductive RawId :=
| Hex (id : ObjectId)
| Malformed.

Inductive UserRole := Host | Admin | Player.

(** [PlayerRole = "player" | "admin"], the roles one can join with. *)
Inductive PlayerRole := AsPlayer | AsAdmin.

Definition roleOf (r : PlayerRole) : UserRole :=
  match r with AsPlayer => Player | AsAdmin => Admin end.

(** The four values the source compares [game.state] with:
    ["not ready"], ["ready"], ["running"], ["ended"]. *)
Inductive GameState := NotReady | Ready | Running | Ended.

(** The numeric settings are JavaScript numbers in the source and
    integers here: the model covers the settings whose numbers are
    whole. *)
Record GameSettings := {
  name : string;
  duration : Z;
  startTime : Z;
  endTime : Z;
  ordered : bool;
  minPlayers : Z;
  maxPlayers : Z;
  joinMidGame : bool;
  numRequiredTasks : Z
}.

(** Of a task, [game.ts] touches only [_id]; the other fields travel
    along untouched and are kept together in [task_body]. *)
Record TaskSchema := {
  task_id : ObjectId;
  task_body : string
}.

Record GameSchema := {
  tasks : list TaskSchema;
  settings : GameSettings;
  state : GameState;
  players : list string;
  admins : list string;
  host : string;
  stopScheduleArn : option string
}.

Record PlayerSchema := {
  player_gameId : ObjectId;
  player_username : string;
  points : Z;
  tasksSubmitted : list ObjectId;
  done : bool
}.

Record UserToken := {
  userid : string;
  username : string;
  gameId : option ObjectId;
  role : option UserRole
}.

(** What [jwt.sign(payload, key, { expiresIn })] signs.  The encoding is
    kept abstract: a token is its payload, the key it was signed with and
    its lifetime. *)
Record Jwt := {
  jwt_payload : UserToken;
  jwt_key : string;
  jwt_expiresIn : string
}.

(** A token string: one that [jwt.sign] produced, or any string that
    [jwt.verify] rejects under every key (malformed or expired). *)
Inductive Token :=
| Signed (j : Jwt)
| Unverifiable.

Record AccessCredentials := {
  accessToken : Token;
  refreshToken : Token
}.

Record CreateGameConfirmation := {
  creds : AccessCredentials;
  gameid : RawId;
  taskids : list RawId
}.

Record UpdateGameStateConfirmation := {
  conf_startTime : Z;
  conf_endTime : Z
}.

(** The HTTP event that the scheduler sends back to the game function. *)
Record APIGatewayProxyEventV2 := {
  headers : list (string * string);
  event_rest : string
}.

#[global] Instance UserRole_eq_dec : EqDecision UserRole.
Proof. solve_decision. Defined.
#[global] Instance PlayerRole_eq_dec : EqDecision PlayerRole.
Proof. solve_decision. Defined.
#[global] Instance GameState_eq_dec : EqDecision GameState.
Proof. solve_decision. Defined.
#[global] Instance GameSettings_eq_dec : EqDecision GameSettings.
Proof. solve_decision. Defined.
#[global] Instance TaskSchema_eq_dec : EqDecision TaskSchema.
Proof. solve_decision. Defined.
#[global] Instance GameSchema_eq_dec : EqDecision GameSchema.
Proof. solve_decision. Defined.

(** ** Exceptions *)

Inductive Error :=
| AssertionError (message : string)     (* a failed [assert(cond, message)] *)
| JsonWebTokenError                     (* thrown by [jwt.verify] *)
| BSONError                             (* thrown by [new ObjectId(raw)] *)
| TypeError                             (* a property read on [null] *)
| Unauthorized                          (* thrown by [verifyToken] *)
| Forbidden                             (* thrown by [verifyToken] *)
| MongoServerError                      (* E11000: duplicate [_id] on insert *)
| RangeError                            (* [toISOString] of an invalid date *)
| ResourceNotFoundException             (* scheduler: no such schedule *)
| SchedulerServiceException (message : string).

Inductive Result (A : Type) :=
| Ok (a : A)
| Throw (e : Error).
Arguments Ok {A} a.
Arguments Throw {A} e.

(** ** The scheduler service *)

Record ScheduleTarget := {
  Arn : string;
  RoleArn : string;
  Input : APIGatewayProxyEventV2
}.

(** What [new Date(t).toISOString().substring(0, 19)] names, for [t] in
    milliseconds since the epoch.  In the years 0000 to 9999 the string
    is [YYYY-MM-DDTHH:mm:ss.sssZ] and its first 19 characters are a date
    and a time to the second: the milliseconds are cut off.  In every
    other year the string starts with a sign and six digits of year, and
    its first 19 characters stop after the minutes. *)
Inductive ScheduleTime :=
| to_the_second (seconds : Z)       (* whole seconds since the epoch *)
| expanded_year (minutes : Z).      (* whole minutes since the epoch *)

(** A [Date] holds at most 8.64e15 milliseconds either side of the
    epoch; beyond that it is an invalid date. *)
Definition Date_range : Z := 8640000000000000.

(** The first millisecond of the year 0000 and of the year 10000. *)
Definition year_0000 : Z := -62167219200000.
Definition year_10000 : Z := 253402300800000.

(** [new Date(t).toISOString().substring(0, 19)]; [toISOString] throws a
    [RangeError] on an invalid date. *)
Definition Date_toISOString_19 (t : Z) : Result ScheduleTime :=
  if Date_range <? Z.abs t then Throw RangeError
  else if (year_0000 <=? t) && (t <? year_10000)
       then Ok (to_the_second (t / 1000))
       else Ok (expanded_year (t / 60000)).

(** [Number.MAX_SAFE_INTEGER]: up to it, in either direction, every
    integer is a JavaScript number, and a sum of two such integers that
    stays within it is computed exactly. *)
Definition MAX_SAFE_INTEGER : Z := 9007199254740991.

Definition safe_integer (n : Z) : Prop :=
  - MAX_SAFE_INTEGER ≤ n ≤ MAX_SAFE_INTEGER.

(** [Name] is [`end-game-${rawGameId}`]: the game id determines it.
    [ScheduleExpression] is [`at(${...})`] around the time that
    [Date_toISOString_19] names. *)
Inductive SchedulerCommand :=
| CreateScheduleCommand (Name : RawId) (ScheduleExpression : ScheduleTime)
    (Target : ScheduleTarget) (GroupName : string)
| DeleteScheduleCommand (Name : RawId) (GroupName : string).

Inductive SchedulerReply :=
| Sent (ScheduleArn : option string)
| NotFound
| Failed (message : string).

(** ** The world *)

Record World := {
  gameColl : gmap ObjectId GameSchema;       (* getGameColl() *)
  playerColl : gmap ObjectId PlayerSchema;   (* getPlayerColl() *)
  nextId : ObjectId;                         (* ObjectId generator *)
  clock : Z;                                 (* Date.now() *)
  openSessions : nat;                        (* sessions started, not ended *)
  scheduler : SchedulerCommand -> SchedulerReply; (* how the service answers *)
  schedulerCalls : list SchedulerCommand;    (* commands sent so far *)
  console : list string                      (* console.log *)
}.

Definition with_gameColl (g : gmap ObjectId GameSchema) (w : World) : World :=
  {| gameColl := g; playerColl := playerColl w; nextId := nextId w;
     clock := clock w; openSessions := openSessions w;
     scheduler := scheduler w; schedulerCalls := schedulerCalls w;
     console := console w |}.

Definition with_playerColl (p : gmap ObjectId PlayerSchema) (w : World) : World :=
  {| gameColl := gameColl w; playerColl := p; nextId := nextId w;
     clock := clock w; openSessions := openSessions w;
     scheduler := scheduler w; schedulerCalls := schedulerCalls w;
     console := console w |}.

Definition with_nextId (n : ObjectId) (w : World) : World :=
  {| gameColl := gameColl w; playerColl := playerColl w; nextId := n;
     clock := clock w; openSessions := openSessions w;
     scheduler := scheduler w; schedulerCalls := schedulerCalls w;
     console := console w |}.

Definition with_clock (t : Z) (w : World) : World :=
  {| gameColl := gameColl w; playerColl := playerColl w; nextId := nextId w;
     clock := t; openSessions := openSessions w;
     scheduler := scheduler w; schedulerCalls := schedulerCalls w;
     console := console w |}.

Definition with_openSessions (n : nat) (w : World) : World :=
  {| gameColl := gameColl w; playerColl := playerColl w; nextId := nextId w;
     clock := clock w; openSessions := n;
     scheduler := scheduler w; schedulerCalls := schedulerCalls w;
     console := console w |}.

Definition with_schedulerCalls (c : list SchedulerCommand) (w : World) : World :=
  {| gameColl := gameColl w; playerColl := playerColl w; nextId := nextId w;
     clock := clock w; openSessions := openSessions w;
     scheduler := scheduler w; schedulerCalls := c;
     console := console w |}.

Definition with_console (c : list string) (w : World) : World :=
  {| gameColl := gameColl w; playerColl := playerColl w; nextId := nextId w;
     clock := clock w; openSessions := openSessions w;
     scheduler := scheduler w; schedulerCalls := schedulerCalls w;
     console := c |}.

(** ** The monad of the [async] functions *)

Definition M (A : Type) : Type := World -> Result A * World.

Definition ret {A} (a : A) : M A := fun w => (Ok a, w).

Definition throw {A} (e : Error) : M A := fun w => (Throw e, w).

Definition bind {A B} (m : M A) (f : A -> M B) : M B :=
  fun w => match m w with
           | (Ok a, w') => f a w'
           | (Throw e, w') => (Throw e, w')
           end.

Notation "x <- c ;; k" := (bind c (fun x => k))
  (at level 100, c at next level, right associativity).
Notation "c ;;; k" := (bind c (fun _ => k))
  (at level 100, right associativity).

(** [try { body } catch(e) { handler }] *)
Definition try_catch {A} (body : M A) (handler : Error -> M A) : M A :=
  fun w => match body w with
           | (Ok a, w') => (Ok a, w')
           | (Throw e, w') => handler e w'
           end.

(** [promise.then(onFulfilled)]: [onFulfilled] runs when the promise is
    fulfilled; a rejection passes through and [onFulfilled] is skipped. *)
Definition then_ {A B} (promise : M A) (onFulfilled : A -> M B) : M B :=
  fun w => match promise w with
           | (Ok a, w') => onFulfilled a w'
           | (Throw e, w') => (Throw e, w')
           end.

Definition liftR {A} (r : Result A) : M A :=
  match r with Ok a => ret a | Throw e => throw e end.

(** [assert(value, message)] *)
Definition assert (value : bool) (message : string) : M unit :=
  if value then ret tt else throw (AssertionError message).

Definition console_log (s : string) : M unit :=
  fun w => (Ok tt, with_console (console w ++ [s]) w).

(** [Date.now()] *)
Definition Date_now : M Z := fun w => (Ok (clock w), w).

(** [new ObjectId()] *)
Definition new_ObjectId : M ObjectId :=
  fun w => (Ok (nextId w), with_nextId (Pos.succ (nextId w)) w).

(** [new ObjectId(raw)] *)
Definition ObjectId_of (raw : RawId) : M ObjectId :=
  match raw with Hex id => ret id | Malformed => throw BSONError end.

(** Truthiness of an optional string: [undefined] and the empty string
    are falsy. *)
Definition truthy (s : option string) : bool :=
  match s with
  | Some s => negb (bool_decide (s = EmptyString))
  | None => false
  end.

(** ** [jsonwebtoken] *)

Definition jwt_sign (payload : UserToken) (key expiresIn : string) : Token :=
  Signed {| jwt_payload := payload; jwt_key := key; jwt_expiresIn := expiresIn |}.

(** [jwt.verify(token, key)] returns the payload of a token signed with
    [key] and throws on every other string.  The verdict is the one at
    the moment of the call: the model keeps no record of when a token
    was signed, so a property about a token presented later takes its
    acceptance at that moment as a hypothesis. *)
Definition jwt_verify (token : Token) (key : string) : Result UserToken :=
  match token with
  | Signed j =>
      if bool_decide (jwt_key j = key) then Ok (jwt_payload j)
      else Throw JsonWebTokenError
  | Unverifiable => Throw JsonWebTokenError
  end.

(** ** The MongoDB driver *)

Record InsertOneResult := {
  ins_acknowledged : bool;
  insertedId : option ObjectId
}.

Record UpdateResult := {
  upd_acknowledged : bool;
  matchedCount : Z;
  modifiedCount : Z
}.

Record DeleteResult := {
  del_acknowledged : bool;
  deletedCount : Z
}.

(** The update documents that [game.ts] builds: [$set] on [state],
    ["settings.startTime"] and ["settings.endTime"]; [$addToSet] and
    [$pull] on one of the two roster arrays. *)
Record SetDoc := {
  set_state : option GameState;
  set_startTime : option Z;
  set_endTime : option Z
}.

Inductive RosterField := players_field | admins_field.

Record UpdateFilter := {
  upd_set : option SetDoc;
  upd_addToSet : option (RosterField * string);
  upd_pull : option (RosterField * string)
}.

Definition no_update : UpdateFilter :=
  {| upd_set := None; upd_addToSet := None; upd_pull := None |}.

Definition with_settings (s : GameSettings) (g : GameSchema) : GameSchema :=
  {| tasks := tasks g; settings := s; state := state g; players := players g;
     admins := admins g; host := host g; stopScheduleArn := stopScheduleArn g |}.

Definition with_state (s : GameState) (g : GameSchema) : GameSchema :=
  {| tasks := tasks g; settings := settings g; state := s; players := players g;
     admins := admins g; host := host g; stopScheduleArn := stopScheduleArn g |}.

Definition with_players (l : list string) (g : GameSchema) : GameSchema :=
  {| tasks := tasks g; settings := settings g; state := state g; players := l;
     admins := admins g; host := host g; stopScheduleArn := stopScheduleArn g |}.

Definition with_admins (l : list string) (g : GameSchema) : GameSchema :=
  {| tasks := tasks g; settings := settings g; state := state g;
     players := players g; admins := l; host := host g;
     stopScheduleArn := stopScheduleArn g |}.

Definition with_startTime (t : Z) (s : GameSettings) : GameSettings :=
  {| name := name s; duration := duration s; startTime := t;
     endTime := endTime s; ordered := ordered s; minPlayers := minPlayers s;
     maxPlayers := maxPlayers s; joinMidGame := joinMidGame s;
     numRequiredTasks := numRequiredTasks s |}.

Definition with_endTime (t : Z) (s : GameSettings) : GameSettings :=
  {| name := name s; duration := duration s; startTime := startTime s;
     endTime := t; ordered := ordered s; minPlayers := minPlayers s;
     maxPlayers := maxPlayers s; joinMidGame := joinMidGame s;
     numRequiredTasks := numRequiredTasks s |}.

(** [array.includes(x)] *)
Definition includes (l : list string) (x : string) : bool :=
  bool_decide (x ∈ l).

(** [$addToSet]: appends the value unless the array holds it already. *)
Definition addToSet (x : string) (l : list string) : list string :=
  if includes l x then l else l ++ [x].

(** [$pull]: removes every occurrence of the value. *)
Definition pull (x : string) (l : list string) : list string :=
  filter (λ y, y ≠ x) l.

Definition apply_set (d : SetDoc) (g : GameSchema) : GameSchema :=
  let g := match set_state d with Some s => with_state s g | None => g end in
  let g := match set_startTime d with
           | Some t => with_settings (with_startTime t (settings g)) g
           | None => g end in
  match set_endTime d with
  | Some t => with_settings (with_endTime t (settings g)) g
  | None => g
  end.

Definition apply_roster (f : string -> list string -> list string)
    (op : RosterField * string) (g : GameSchema) : GameSchema :=
  match op with
  | (players_field, x) => with_players (f x (players g)) g
  | (admins_field, x) => with_admins (f x (admins g)) g
  end.

Definition apply_update (u : UpdateFilter) (g : GameSchema) : GameSchema :=
  let g := match upd_set u with Some d => apply_set d g | None => g end in
  let g := match upd_addToSet u with
           | Some op => apply_roster addToSet op g | None => g end in
  match upd_pull u with
  | Some op => apply_roster pull op g
  | None => g
  end.

(** [getGameColl().find().toArray()] *)
Definition games_find_toArray : M (list (ObjectId * GameSchema)) :=
  fun w => (Ok (map_to_list (gameColl w)), w).

(** [getGameColl().findOne({ _id: id })] *)
Definition games_findOne (id : ObjectId) : M (option GameSchema) :=
  fun w => (Ok (gameColl w !! id), w).

(** [getGameColl().insertOne(doc)]: the driver gives the document a new
    [_id]; the server refuses an [_id] that the collection holds already.
    Writes are acknowledged, as under the driver's default write concern:
    an insert that returns has stored the document and reports so. *)
Definition games_insertOne (doc : GameSchema) : M InsertOneResult :=
  id <- new_ObjectId ;;
  fun w =>
    match gameColl w !! id with
    | Some _ => (Throw MongoServerError, w)
    | None =>
        (Ok {| ins_acknowledged := true; insertedId := Some id |},
         with_gameColl (<[id := doc]> (gameColl w)) w)
    end.

(** [getPlayerColl().insertOne(doc)] *)
Definition players_insertOne (doc : PlayerSchema) : M InsertOneResult :=
  id <- new_ObjectId ;;
  fun w =>
    match playerColl w !! id with
    | Some _ => (Throw MongoServerError, w)
    | None =>
        (Ok {| ins_acknowledged := true; insertedId := Some id |},
         with_playerColl (<[id := doc]> (playerColl w)) w)
    end.

(** [getGameColl().updateOne({ _id: id }, update)]: [modifiedCount] is 1
    when the document exists and the update changes it, else 0. *)
Definition games_updateOne (id : ObjectId) (update : UpdateFilter) : M UpdateResult :=
  fun w =>
    match gameColl w !! id with
    | None =>
        (Ok {| upd_acknowledged := true; matchedCount := 0; modifiedCount := 0 |}, w)
    | Some g =>
        let g' := apply_update update g in
        if bool_decide (g' = g) then
          (Ok {| upd_acknowledged := true; matchedCount := 1; modifiedCount := 0 |}, w)
        else
          (Ok {| upd_acknowledged := true; matchedCount := 1; modifiedCount := 1 |},
           with_gameColl (<[id := g']> (gameColl w)) w)
    end.

(** [getGameColl().deleteOne({ _id: id })] *)
Definition games_deleteOne (id : ObjectId) : M DeleteResult :=
  fun w =>
    match gameColl w !! id with
    | None => (Ok {| del_acknowledged := true; deletedCount := 0 |}, w)
    | Some _ =>
        (Ok {| del_acknowledged := true; deletedCount := 1 |},
         with_gameColl (delete id (gameColl w)) w)
    end.

(** [getPlayerColl().deleteMany({ gameId: id })] *)
Definition players_deleteMany (id : ObjectId) : M DeleteResult :=
  fun w =>
    let gone := filter (λ kv, player_gameId kv.2 = id) (playerColl w) in
    (Ok {| del_acknowledged := true; deletedCount := Z.of_nat (size gone) |},
     with_playerColl (filter (λ kv, player_gameId kv.2 ≠ id) (playerColl w)) w).

(** A driver session; the world counts the sessions that are open. *)
Inductive ClientSession := client_session.

(** [getClient().startSession()] *)
Definition startSession : M ClientSession :=
  fun w => (Ok client_session, with_openSessions (S (openSessions w)) w).

(** [session.endSession()] *)
Definition endSession (session : ClientSession) : M unit :=
  fun w => (Ok tt, with_openSessions (Nat.pred (openSessions w)) w).

(** [session.withTransaction(fn)]: runs [fn]; when [fn] throws, the
    transaction is aborted and the promise rejects with the same error.
    The collection calls inside [fn] are issued without the [session]
    option in [game.ts], so the driver does not enlist them in the
    transaction and an abort takes none of them back.  Neither commit nor
    abort ends the session. *)
Definition withTransaction (session : ClientSession) (fn : M unit) : M unit :=
  try_catch fn (fun e => throw e).

(** [schedulerClient.send(command)] *)
Definition scheduler_send (command : SchedulerCommand) : M (option string) :=
  fun w =>
    let w' := with_schedulerCalls (schedulerCalls w ++ [command]) w in
    match scheduler w command with
    | Sent arn => (Ok arn, w')
    | NotFound => (Throw ResourceNotFoundException, w')
    | Failed message => (Throw (SchedulerServiceException message), w')
    end.

(** ** [constants.ts] *)

(** The constants that [game.ts] imports; their values come from the
    environment of the process. *)
Class Constants := {
  ACCESS_TOKEN_KEY : string;
  REFRESH_TOKEN_KEY : string;
  ADMIN_CODES : option (list string);
  MAX_ADMINS : Z;
  MAX_GAMES : Z;
  SCHEDULER_GROUP_NAME : string;
  SCHEDULER_ROLE_ARN : string
}.

(** [creds.gameId = g] and [creds.role = r] *)
Definition with_gameId (g : ObjectId) (t : UserToken) : UserToken :=
  {| userid := userid t; username := username t; gameId := Some g;
     role := role t |}.

Definition with_role (r : UserRole) (t : UserToken) : UserToken :=
  {| userid := userid t; username := username t; gameId := gameId t;
     role := Some r |}.

(** What [getPublicGame] and [listPublicGames] return of a game. *)
Record PublicGameSchema := {
  public_settings : GameSettings;
  numTasks : nat;
  public_state : GameState;
  public_host : string;
  public_admins : list string;
  public_players : list string
}.

(** ** [auth.ts] and [game.ts] *)

Section Game.
Context `{Constants}.

(** Modelled from the spec: [verifyToken] is defined in [auth.ts], which
    is not part of the sources at hand; only its calls from [game.ts]
    are.  Section 4.2 of the specification: it decodes the credential and
    validates its signature and expiry, failing with [Unauthorized] when
    the credential is invalid; it fails with [Forbidden] when the decoded
    [gameId] is not the target game or the decoded [role] is not among
    the allowed roles; on success it returns the decoded identity. *)
Definition verifyToken (token : Token) (target : ObjectId)
    (allowedRoles : list UserRole) : Result UserToken :=
  match jwt_verify token ACCESS_TOKEN_KEY with
  | Throw _ => Throw Unauthorized
  | Ok decoded =>
      if bool_decide (gameId decoded = Some target)
         && match role decoded with
            | Some r => bool_decide (r ∈ allowedRoles)
            | None => false
            end
      then Ok decoded
      else Throw Forbidden
  end.

(** [upgradeCredentials(token, gameId, role)] *)
Definition upgradeCredentials (token : UserToken) (gameId : ObjectId)
    (role : UserRole) : AccessCredentials :=
  let creds := {| userid := userid token; username := username token;
                  gameId := None; role := None |} in
  let creds := with_gameId gameId creds in
  let creds := with_role role creds in
  let access_token := jwt_sign creds ACCESS_TOKEN_KEY "15min" in
  let refresh_token := jwt_sign creds REFRESH_TOKEN_KEY "3hr" in
  {| accessToken := access_token; refreshToken := refresh_token |}.

(** [assert(value, message)] on a value that is an object or [null]. *)
Definition assert_defined {A} (value : option A) (message : string) : M A :=
  match value with
  | Some a => ret a
  | None => throw (AssertionError message)
  end.

(** [tasks.forEach(t => t._id = new ObjectId())] *)
Fixpoint assign_ids (tasks : list TaskSchema) : M (list TaskSchema) :=
  match tasks with
  | [] => ret []
  | t :: rest =>
      id <- new_ObjectId ;;
      rest' <- assign_ids rest ;;
      ret ({| task_id := id; task_body := task_body t |} :: rest')
  end.

(** [createGame(token, settings, tasks)] *)
Definition createGame (token : Token) (settings : GameSettings)
    (tasks : list TaskSchema) : M CreateGameConfirmation :=
  games <- games_find_toArray ;;
  assert (Z.of_nat (length games) <? MAX_GAMES) "Max games reached" ;;;
  decodedToken <- liftR (jwt_verify token ACCESS_TOKEN_KEY) ;;
  tasks <- assign_ids tasks ;;
  let taskids := map (λ t, Hex (task_id t)) tasks in
  let settings := with_endTime 0 settings in
  let settings :=
    if negb (duration settings =? 0)
    then with_endTime (startTime settings + duration settings) settings
    else settings in
  res <- games_insertOne
           {| tasks := tasks;
              settings := settings;
              state := if minPlayers settings =? 0 then Ready else NotReady;
              players := [];
              admins := [];
              host := username decodedToken;
              stopScheduleArn := None |} ;;
  assert (ins_acknowledged res && bool_decide (insertedId res ≠ None))
         "Create operation unsuccessful" ;;;
  match insertedId res with
  | Some insertedId =>
      let creds := upgradeCredentials decodedToken insertedId Host in
      ret {| creds := creds; gameid := Hex insertedId; taskids := taskids |}
  | None => throw TypeError
  end.

(** [code && adminCodes && adminCodes.includes(code)] *)
Definition admin_code_ok (code : option string)
    (adminCodes : option (list string)) : bool :=
  match code, adminCodes with
  | Some c, Some codes => truthy code && includes codes c
  | _, _ => false
  end.

(** [joinGame], up to the point where the session is started: the id,
    the admin code, the token, the game, and the four assertions on the
    game that was read. *)
Definition joinGame_checks (token : Token) (rawGameId : RawId)
    (role : PlayerRole) (code : option string)
    : M (ObjectId * UserToken * GameSchema) :=
  gameId <- ObjectId_of rawGameId ;;
  let adminCodes := ADMIN_CODES in
  assert (bool_decide (role ≠ AsAdmin) || admin_code_ok code adminCodes)
         "Invalid admin creds" ;;;
  decodedToken <- liftR (jwt_verify token ACCESS_TOKEN_KEY) ;;
  game <- games_findOne gameId ;;
  game <- assert_defined game "Invalid game ID" ;;
  assert (bool_decide (username decodedToken ≠ host game)
          && negb (includes (players game) (username decodedToken))
          && negb (includes (admins game) (username decodedToken)))
         "User already in game" ;;;
  assert (bool_decide (role ≠ AsPlayer)
          || (Z.of_nat (length (players game)) <? maxPlayers (settings game)))
         "Maximum player capacity reached for this game" ;;;
  assert (bool_decide (role ≠ AsAdmin)
          || (Z.of_nat (length (admins game)) <? MAX_ADMINS))
         "Maximum admin capacity reached for this game" ;;;
  assert (bool_decide (role = AsAdmin) || bool_decide (state game ≠ Ended))
         "This game has already ended; unable to join" ;;;
  ret (gameId, decodedToken, game).

(** The callback that [joinGame] hands to [withTransaction].  [game] is
    the document that [joinGame_checks] read. *)
Definition joinGame_transaction (decodedToken : UserToken) (gameId : ObjectId)
    (game : GameSchema) (role : PlayerRole) : M unit :=
  let update := no_update in
  r <- (if bool_decide (role = AsAdmin) then
          ret ((admins_field, username decodedToken), update)
        else
          let toAdd := (players_field, username decodedToken) in
          playerRes <- players_insertOne
                         {| player_gameId := gameId;
                            player_username := username decodedToken;
                            points := 0;
                            tasksSubmitted := [];
                            done := if numRequiredTasks (settings game) =? 0
                                    then true else false |} ;;
          assert (ins_acknowledged playerRes
                  && bool_decide (insertedId playerRes ≠ None))
                 "Create operation unsuccessful" ;;;
          let update :=
            if bool_decide (state game = NotReady)
               && (Z.of_nat (length (players game))
                   =? minPlayers (settings game) - 1)
            then {| upd_set := Some {| set_state := Some Ready;
                                       set_startTime := None;
                                       set_endTime := None |};
                    upd_addToSet := upd_addToSet update;
                    upd_pull := upd_pull update |}
            else update in
          ret (toAdd, update)) ;;
  let '(toAdd, update) := r in
  let update := {| upd_set := upd_set update;
                   upd_addToSet := Some toAdd;
                   upd_pull := upd_pull update |} in
  gameRes <- games_updateOne gameId update ;;
  assert (upd_acknowledged gameRes && (modifiedCount gameRes =? 1))
         "Operation unsuccessful".

(** [joinGame] from [getClient().startSession()] on. *)
Definition joinGame_commit (decodedToken : UserToken) (gameId : ObjectId)
    (game : GameSchema) (role : PlayerRole) : M AccessCredentials :=
  session <- startSession ;;
  then_ (withTransaction session
           (joinGame_transaction decodedToken gameId game role))
        (fun _ => endSession session) ;;;
  ret (upgradeCredentials decodedToken gameId (roleOf role)).

(** [joinGame(token, rawGameId, role, code)] *)
Definition joinGame (token : Token) (rawGameId : RawId) (role : PlayerRole)
    (code : option string) : M AccessCredentials :=
  r <- joinGame_checks token rawGameId role code ;;
  let '(gameId, decodedToken, game) := r in
  joinGame_commit decodedToken gameId game role.

(** [leaveGame(token, rawGameId)] *)
Definition leaveGame (token : Token) (rawGameId : RawId) : M unit :=
  gameId <- ObjectId_of rawGameId ;;
  decodedToken <- liftR (verifyToken token gameId [Player; Admin]) ;;
  result <- games_updateOne gameId
              {| upd_set := None; upd_addToSet := None;
                 upd_pull := Some (players_field, username decodedToken) |} ;;
  assert (upd_acknowledged result && (modifiedCount result =? 1))
         "No player removed".

(** [stopGameEvent.headers.source = "scheduler"] *)
Definition mark_from_scheduler (e : APIGatewayProxyEventV2) : APIGatewayProxyEventV2 :=
  {| headers := ("source", "scheduler")%string
                  :: filter (λ kv, kv.1 ≠ "source"%string) (headers e);
     event_rest := event_rest e |}.

(** [startGame(token, rawGameId, gameFunctionArn, stopGameEvent)] *)
Definition startGame (token : Token) (rawGameId : RawId)
    (gameFunctionArn : option string)
    (stopGameEvent : option APIGatewayProxyEventV2)
    : M UpdateGameStateConfirmation :=
  gameId <- ObjectId_of rawGameId ;;
  _ <- liftR (verifyToken token gameId [Host; Admin]) ;;
  game <- games_findOne gameId ;;
  game <- assert_defined game "Invalid game ID" ;;
  assert (bool_decide (state game = Ready)) "Invalid game state" ;;;
  currentTime <- Date_now ;;
  let endTime := if duration (settings game) =? 0 then 0
                 else currentTime + duration (settings game) * 1000 in
  result <- games_updateOne gameId
              {| upd_set := Some {| set_state := Some Running;
                                    set_startTime := Some currentTime;
                                    set_endTime := Some endTime |};
                 upd_addToSet := None; upd_pull := None |} ;;
  assert (upd_acknowledged result && (modifiedCount result =? 1))
         "Failed to start game" ;;;
  (if 0 <? duration (settings game) then
     assert (truthy gameFunctionArn)
            "gameFunctionArn must be specified if the game has a duration > 0." ;;;
     assert (bool_decide (stopGameEvent ≠ None))
            "stopGameEvent must be specified if the game has a duration > 0." ;;;
     match gameFunctionArn, stopGameEvent with
     | Some gameFunctionArn, Some stopGameEvent =>
         let stopGameEvent := mark_from_scheduler stopGameEvent in
         console_log "beginning scheduler" ;;;
         at_ <- liftR (Date_toISOString_19 endTime) ;;
         response <- scheduler_send
                       (CreateScheduleCommand rawGameId at_
                          {| Arn := gameFunctionArn;
                             RoleArn := SCHEDULER_ROLE_ARN;
                             Input := stopGameEvent |}
                          SCHEDULER_GROUP_NAME) ;;
         console_log "ended scheduler" ;;;
         console_log ("scheduler response: "
                      ++ from_option id "undefined" response)%string
         (* game.stopScheduleArn = response.ScheduleArn changes the local
            copy of the document only *)
     | _, _ => throw TypeError
     end
   else ret tt) ;;;
  ret {| conf_startTime := currentTime; conf_endTime := endTime |}.

(** [(e as Error).message] *)
Definition error_message (e : Error) : string :=
  match e with
  | AssertionError message => message
  | SchedulerServiceException message => message
  | JsonWebTokenError => "invalid token"
  | BSONError => "input must be a 24 character hex string"
  | TypeError => "Cannot read properties of null"
  | Unauthorized => "Unauthorized"
  | Forbidden => "Forbidden"
  | MongoServerError => "E11000 duplicate key error"
  | RangeError => "Invalid time value"
  | ResourceNotFoundException => "Schedule does not exist"
  end.

(** [stopGame(token, rawGameId, fromSchedule)] *)
Definition stopGame (token : Token) (rawGameId : RawId)
    (fromSchedule : option bool) : M UpdateGameStateConfirmation :=
  gameId <- ObjectId_of rawGameId ;;
  _ <- liftR (verifyToken token gameId [Host; Admin]) ;;
  game <- games_findOne gameId ;;
  game <- assert_defined game "Invalid game ID" ;;
  assert (bool_decide (state game = Running)) "Invalid game state" ;;;
  currentTime <- Date_now ;;
  result <- games_updateOne gameId
              {| upd_set := Some {| set_state := Some Ended;
                                    set_startTime := None;
                                    set_endTime := Some currentTime |};
                 upd_addToSet := None; upd_pull := None |} ;;
  assert (upd_acknowledged result && (modifiedCount result =? 1))
         "Failed to end game" ;;;
  (if negb (from_option id false fromSchedule) then
     try_catch
       (response <- scheduler_send
                      (DeleteScheduleCommand rawGameId SCHEDULER_GROUP_NAME) ;;
        console_log "[object Object]" ;;;
        console_log "deleted scheduler" ;;;
        console_log "scheduler response: [object Object]")
       (fun e =>
          match e with
          | ResourceNotFoundException => console_log "No schedule to destroy"
          | _ => console_log ("Unable to destroy schedule, reason: "
                              ++ error_message e)%string
          end)
   else ret tt) ;;;
  ret {| conf_startTime := startTime (settings game);
         conf_endTime := currentTime |}.

(** [restartGame(token, rawGameId)] *)
Definition restartGame (token : Token) (rawGameId : RawId)
    : M CreateGameConfirmation :=
  gameId <- ObjectId_of rawGameId ;;
  _ <- liftR (verifyToken token gameId [Host; Admin]) ;;
  game <- games_findOne gameId ;;
  game <- assert_defined game "Invalid game ID" ;;
  assert (bool_decide (state game = Ended))
         "Game hasn't ended, unable to restart" ;;;
  createGame token (settings game) (tasks game).

(** [deleteGame], up to the point where the session is started. *)
Definition deleteGame_checks (token : Token) (rawGameId : RawId)
    : M (ObjectId * GameSchema) :=
  gameId <- ObjectId_of rawGameId ;;
  _ <- liftR (verifyToken token gameId [Host; Admin]) ;;
  game <- games_findOne gameId ;;
  game <- assert_defined game "Invalid game ID" ;;
  assert (bool_decide (state game ≠ Running))
         "Game is still running, unable to delete" ;;;
  ret (gameId, game).

(** The callback that [deleteGame] hands to [withTransaction]. *)
Definition deleteGame_transaction (gameId : ObjectId) : M unit :=
  gameDeletion <- games_deleteOne gameId ;;
  assert (del_acknowledged gameDeletion && (deletedCount gameDeletion =? 1))
         "Unable to complete delete operation" ;;;
  playerDeletion <- players_deleteMany gameId ;;
  assert (del_acknowledged playerDeletion)
         "Unable to complete delete operation".

(** [deleteGame] from [getClient().startSession()] on. *)
Definition deleteGame_commit (gameId : ObjectId) (game : GameSchema)
    : M GameSchema :=
  session <- startSession ;;
  then_ (withTransaction session (deleteGame_transaction gameId))
        (fun _ => endSession session) ;;;
  ret game.

(** [deleteGame(token, rawGameId)] *)
Definition deleteGame (token : Token) (rawGameId : RawId) : M GameSchema :=
  r <- deleteGame_checks token rawGameId ;;
  let '(gameId, game) := r in
  deleteGame_commit gameId game.

(** [getGame(token, rawGameId)]; the document comes with its [_id]. *)
Definition getGame (token : Token) (rawGameId : RawId)
    : M (ObjectId * GameSchema) :=
  gameId <- ObjectId_of rawGameId ;;
  _ <- liftR (verifyToken token gameId [Host; Admin]) ;;
  game <- games_findOne gameId ;;
  game <- assert_defined game "Invalid game ID" ;;
  ret (gameId, game).

(** [getPublicGame(rawGameId)] *)
Definition getPublicGame (rawGameId : RawId) : M PublicGameSchema :=
  gameId <- ObjectId_of rawGameId ;;
  game <- games_findOne gameId ;;
  game <- assert_defined game "Invalid game" ;;
  let publicGame :=
    {| public_settings := settings game;
       numTasks := length (tasks game);
       public_state := state game;
       public_host := host game;
       public_admins := admins game;
       public_players := players game |} in
  ret publicGame.

(** [listPublicGames()]: the loop pushes one entry per document of
    [games.toArray()]. *)
Definition listPublicGames : M (list PublicGameSchema) :=
  games <- games_find_toArray ;;
  let publicGames := [] in
  let publicGames :=
    foldl (λ publicGames game,
             publicGames ++
             [ {| public_settings := settings game.2;
                  numTasks := length (tasks game.2);
                  public_state := state game.2;
                  public_host := host game.2;
                  public_admins := admins game.2;
                  public_players := players game.2 |} ])
          publicGames games in
  ret publicGames.

End Game.

(** ** Vocabulary of the specification *)

(** The failures that the specification calls [InvalidState]: the three
    assertions on [game.state] in [startGame], [stopGame], [restartGame]
    and [deleteGame]. *)
Definition InvalidState (e : Error) : Prop :=
  e = AssertionError "Invalid game state"
  ∨ e = AssertionError "Game hasn't ended, unable to restart"
  ∨ e = AssertionError "Game is still running, unable to delete".

(** The capacity failure of a player join. *)
Definition PlayerCapacityReached : Error :=
  AssertionError "Maximum player capacity reached for this game".

(** The failure of [leaveGame] that the specification calls
    [PersistenceError]. *)
Definition NoPlayerRemoved : Error := AssertionError "No player removed".

(** Settings with both timestamps blanked. *)
Definition sans_timestamps (s : GameSettings) : GameSettings :=
  with_startTime 0 (with_endTime 0 s).

(** The roster array that a join with the given role extends. *)
Definition roster_field (r : PlayerRole) : RosterField :=
  match r with AsPlayer => players_field | AsAdmin => admins_field end.

(** The condition under which [joinGame] adds [$set: { state: "ready" }]
    to its update. *)
Definition fills_minimum (r : PlayerRole) (g : GameSchema) : bool :=
  bool_decide (r = AsPlayer)
  && bool_decide (state g = NotReady)
  && (Z.of_nat (length (players g)) =? minPlayers (settings g) - 1).

(** The one update document that a join sends to the games collection. *)
Definition join_update (r : PlayerRole) (user : string) (g : GameSchema)
    : UpdateFilter :=
  {| upd_set := if fills_minimum r g
                then Some {| set_state := Some Ready; set_startTime := None;
                             set_endTime := None |}
                else None;
     upd_addToSet := Some (roster_field r, user);
     upd_pull := None |}.

Section Sequences.
Context `{Constants}.

(** [call w w']: one call of one function of [game.ts], with any
    arguments and any outcome, leads from [w] to [w']. *)
Inductive call : World → World → Prop :=
| call_createGame token settings0 tasks0 r w w' :
    createGame token settings0 tasks0 w = (r, w') → call w w'
| call_joinGame token rawGameId role code r w w' :
    joinGame token rawGameId role code w = (r, w') → call w w'
| call_getGame token rawGameId r w w' :
    getGame token rawGameId w = (r, w') → call w w'
| call_getPublicGame rawGameId r w w' :
    getPublicGame rawGameId w = (r, w') → call w w'
| call_listPublicGames r w w' :
    listPublicGames w = (r, w') → call w w'
| call_leaveGame token rawGameId r w w' :
    leaveGame token rawGameId w = (r, w') → call w w'
| call_startGame token rawGameId arn ev r w w' :
    startGame token rawGameId arn ev w = (r, w') → call w w'
| call_stopGame token rawGameId fromSchedule r w w' :
    stopGame token rawGameId fromSchedule w = (r, w') → call w w'
| call_restartGame token rawGameId r w w' :
    restartGame token rawGameId w = (r, w') → call w w'
| call_deleteGame token rawGameId r w w' :
    deleteGame token rawGameId w = (r, w') → call w w'.

(** [calls w w']: a finite sequence of such calls, one after the other. *)
Inductive calls : World → World → Prop :=
| calls_done w : calls w w
| calls_more w w1 w2 : call w w1 → calls w1 w2 → calls w w2.

(** The ways in which one call rewrites a stored game: not at all, by a
    join whose checks passed, by a leave, by a start from ["ready"], by a
    stop from ["running"]. *)
Inductive doc_change : GameSchema → GameSchema → Prop :=
| doc_same g : doc_change g g
| doc_join g r user :
    user ≠ host g → user ∉ players g → user ∉ admins g →
    (r = AsPlayer → Z.of_nat (length (players g)) < maxPlayers (settings g)) →
    (r = AsAdmin → Z.of_nat (length (admins g)) < MAX_ADMINS) →
    doc_change g (apply_update (join_update r user g) g)
| doc_leave g user :
    doc_change g (with_players (pull user (players g)) g)
| doc_start g t1 t2 :
    state g = Ready →
    doc_change g
      (apply_update
         {| upd_set := Some {| set_state := Some Running;
                               set_startTime := Some t1;
                               set_endTime := Some t2 |};
            upd_addToSet := None; upd_pull := None |} g)
| doc_stop g t :
    state g = Running →
    doc_change g
      (apply_update
         {| upd_set := Some {| set_state := Some Ended;
                               set_startTime := None;
                               set_endTime := Some t |};
            upd_addToSet := None; upd_pull := None |} g).

End Sequences.

(** A game as [createGame] inserts it: nobody on the roster yet. *)
Definition doc_created (g : GameSchema) : Prop :=
  players g = [] ∧ admins g = []
  ∧ state g = (if minPlayers (settings g) =? 0 then Ready else NotReady).

Section Changes.
Context `{Constants}.

(** The ways in which the games collection differs after a call: not at
    all; by one new game, while there is room for one; by one rewritten
    game; by one game less, which was not running. *)
Inductive store_change : World → World → Prop :=
| store_same w w' :
    gameColl w' = gameColl w → store_change w w'
| store_created w w' id g :
    gameColl w !! id = None → doc_created g →
    Z.of_nat (size (gameColl w)) < MAX_GAMES →
    gameColl w' = <[id := g]> (gameColl w) → store_change w w'
| store_rewritten w w' id g g' :
    gameColl w !! id = Some g → doc_change g g' →
    gameColl w' = <[id := g']> (gameColl w) → store_change w w'
| store_deleted w w' id g :
    gameColl w !! id = Some g → state g ≠ Running →
    gameColl w' = delete id (gameColl w) → store_change w w'.

(** The admins of a game are within the capacity [MAX_ADMINS]; a
    capacity below 0 counts as 0. *)
Definition admins_bounded (g : GameSchema) : Prop :=
  Z.of_nat (length (admins g)) ≤ Z.max 0 MAX_ADMINS.

End Changes.

(** Every game of the store has the property. *)
Definition all_games (P : GameSchema → Prop) (w : World) : Prop :=
  ∀ id g, gameColl w !! id = Some g → P g.

(** The edges of the lifecycle. *)
Inductive edge : GameState → GameState → Prop :=
| edge_ready : edge NotReady Ready
| edge_start : edge Ready Running
| edge_stop : edge Running Ended.

(** Host, admins and players of a game are pairwise different users. *)
Definition roster_exclusive (g : GameSchema) : Prop :=
  NoDup (host g :: admins g ++ players g).

(** The public projection of a stored game. *)
Definition public_view (g : GameSchema) : PublicGameSchema :=
  {| public_settings := settings g;
     numTasks := length (tasks g);
     public_state := state g;
     public_host := host g;
     public_admins := admins g;
     public_players := players g |}.

(** ** A concrete deployment, for running the functions *)

Definition demo_constants : Constants :=
  {| ACCESS_TOKEN_KEY := "access-key";
     REFRESH_TOKEN_KEY := "refresh-key";
     ADMIN_CODES := Some ["letmein"%string];
     MAX_ADMINS := 2;
     MAX_GAMES := 10;
     SCHEDULER_GROUP_NAME := "vulture-timers";
     SCHEDULER_ROLE_ARN := "arn:role/scheduler" |}.

Section Scenario.
#[local] Existing Instance demo_constants.

(** An empty store and a scheduler endpoint that is out of reach. *)
Definition new_world : World :=
  {| gameColl := ∅; playerColl := ∅; nextId := 1%positive; clock := 1700000;
     openSessions := 0%nat;
     scheduler := λ _, Failed "connect ETIMEDOUT";
     schedulerCalls := []; console := [] |}.

Definition claims (user : string) : UserToken :=
  {| userid := user; username := user; gameId := None; role := None |}.

(** The token of a signed-in user who is in no game yet. *)
Definition identity (user : string) : Token :=
  jwt_sign (claims user) "access-key" "15min".

(** The access token that [upgradeCredentials] issues. *)
Definition scoped (user : string) (g : ObjectId) (r : UserRole) : Token :=
  accessToken (upgradeCredentials (claims user) g r).

Definition quiz : list TaskSchema :=
  [ {| task_id := 9%positive; task_body := "Name the capital of Peru" |} ].

Definition open_settings : GameSettings :=
  {| name := "open table"; duration := 0; startTime := 0; endTime := 0;
     ordered := false; minPlayers := 0; maxPlayers := 1;
     joinMidGame := false; numRequiredTasks := 0 |}.

Definition duel_settings : GameSettings :=
  {| name := "duel"; duration := 0; startTime := 0; endTime := 0;
     ordered := true; minPlayers := 1; maxPlayers := 1;
     joinMidGame := false; numRequiredTasks := 1 |}.

Definition after {A} (m : M A) (w : World) : World := (m w).2.

(** hana creates the open table: task 1, game 2, state ["ready"]. *)
Definition w_created : World :=
  after (createGame (identity "hana") open_settings quiz) new_world.

(** jo joins game 2 as an admin. *)
Definition w_staffed : World :=
  after (joinGame (identity "jo") (Hex 2) AsAdmin (Some "letmein"%string))
        w_created.

(** hana starts game 2, then stops it by hand. *)
Definition w_running : World :=
  after (startGame (scoped "hana" 2 Host) (Hex 2) None None) w_staffed.

Definition w_ended : World :=
  after (stopGame (scoped "hana" 2 Host) (Hex 2) None) w_running.

(** ivo takes the only seat of game 2. *)
Definition w_full : World :=
  after (joinGame (identity "ivo") (Hex 2) AsPlayer None) w_created.

(** jo, an admin of game 2, restarts it once it has ended: task 3,
    game 4. *)
Definition w_restarted : World :=
  after (restartGame (scoped "jo" 2 Admin) (Hex 2)) w_ended.

(** hana creates a duel: game 1, state ["not ready"]. *)
Definition w_waiting : World :=
  after (createGame (identity "hana") duel_settings []) new_world.

(** ivo joins the duel as its one player. *)
Definition w_matched : World :=
  after (joinGame (identity "ivo") (Hex 1) AsPlayer None) w_waiting.

(** The documents of game 2 and of game 1 at those moments. *)
Definition open_game : GameSchema :=
  {| tasks := [ {| task_id := 1%positive;
                   task_body := "Name the capital of Peru" |} ];
     settings := open_settings; state := Ready; players := []; admins := [];
     host := "hana"; stopScheduleArn := None |}.

Definition staffed_game : GameSchema := with_admins ["jo"%string] open_game.

Definition full_game : GameSchema := with_players ["ivo"%string] open_game.

Definition running_game : GameSchema :=
  with_state Running
    (with_settings (with_startTime 1700000 open_settings) staffed_game).

Definition ended_game : GameSchema :=
  with_state Ended
    (with_settings
       (with_endTime 1700000 (with_startTime 1700000 open_settings))
       staffed_game).

Definition waiting_game : GameSchema :=
  {| tasks := []; settings := duel_settings; state := NotReady; players := [];
     admins := []; host := "hana"; stopScheduleArn := None |}.

(** Two requests to delete game 2 arrive together: both read the game
    before either deletes it.  The first one to delete leaves [w_deleted];
    the other one then runs its transaction on [w_deleted]. *)
Definition w_deleted : World :=
  after (deleteGame_commit 2 ended_game) w_ended.

Definition w_deleted_twice : World :=
  after (deleteGame_commit 2 ended_game) w_deleted.

(** ivo sends the same join twice: both requests read game 2 before
    either writes.  The first one to write leaves [w_full]; the other one
    then runs its transaction on [w_full]. *)
Definition w_joined_twice : World :=
  after (joinGame_commit (claims "ivo") 2 open_game AsPlayer) w_full.

(** A token that carries the scope of another game. *)
Definition elsewhere (user : string) : UserToken :=
  {| userid := user; username := user; gameId := Some 7%positive;
     role := Some Host |}.

(** The same store with a scheduler that accepts every command. *)
Definition online (w : World) : World :=
  {| gameColl := gameColl w; playerColl := playerColl w; nextId := nextId w;
     clock := clock w; openSessions := openSessions w;
     scheduler := λ _, Sent (Some "arn:schedule/end-game"%string);
     schedulerCalls := schedulerCalls w; console := console w |}.

Definition timed_settings : GameSettings :=
  {| name := "sprint"; duration := 90; startTime := 0; endTime := 0;
     ordered := false; minPlayers := 0; maxPlayers := 4;
     joinMidGame := true; numRequiredTasks := 0 |}.

(** hana creates the sprint: task 1, game 2, state ["ready"]. *)
Definition w_timed : World :=
  after (createGame (identity "hana") timed_settings quiz) new_world.

Definition timed_game : GameSchema :=
  {| tasks := [ {| task_id := 1%positive;
                   task_body := "Name the capital of Peru" |} ];
     settings := with_endTime 90 timed_settings; state := Ready;
     players := []; admins := []; host := "hana"; stopScheduleArn := None |}.

(** The request that the scheduler is to send back when the time is up. *)
Definition stop_request : APIGatewayProxyEventV2 :=
  {| headers := [("token", "host-token"); ("source", "browser")]%string;
     event_rest := "POST /games/2 {action: stop}" |}.

(** ivo, seated at game 2, and the record made for him. *)
Definition ivo_record : PlayerSchema :=
  {| player_gameId := 2%positive; player_username := "ivo"; points := 0;
     tasksSubmitted := []; done := true |}.

(** The full table after its game has been started and stopped. *)
Definition w_full_ended : World :=
  after (stopGame (scoped "hana" 2 Host) (Hex 2) None)
    (after (startGame (scoped "hana" 2 Host) (Hex 2) None None) w_full).

(** A second table beside the finished one, with its own player. *)
Definition w_two_tables : World :=
  after (joinGame (identity "kim") (Hex 4) AsPlayer None)
    (after (createGame (identity "jo") open_settings []) w_full_ended).

Definition full_ended_game : GameSchema :=
  with_state Ended
    (with_settings
       (with_endTime 1700000 (with_startTime 1700000 open_settings))
       full_game).

(** The record made for kim at game 4. *)
Definition kim_record : PlayerSchema :=
  {| player_gameId := 4%positive; player_username := "kim"; points := 0;
     tasksSubmitted := []; done := true |}.

(** ivo and kim ask for the only seat of game 2 at the same time: both
    requests read the game, with nobody seated, before either writes.
    ivo's request writes first and leaves [w_full]; kim's request then
    runs its transaction, with the document it read, on [w_full]. *)
Definition w_overfull : World :=
  after (joinGame_commit (claims "kim") 2 open_game AsPlayer) w_full.

Definition overfull_game : GameSchema :=
  with_players ["ivo"; "kim"]%string open_game.

Definition doubles_settings : GameSettings :=
  {| name := "doubles"; duration := 0; startTime := 0; endTime := 0;
     ordered := false; minPlayers := 2; maxPlayers := 4;
     joinMidGame := false; numRequiredTasks := 0 |}.

(** hana creates a game for two players or more: game 1, state
    ["not ready"]. *)
Definition w_doubles : World :=
  after (createGame (identity "hana") doubles_settings []) new_world.

Definition doubles_game : GameSchema :=
  {| tasks := []; settings := doubles_settings; state := NotReady;
     players := []; admins := []; host := "hana"; stopScheduleArn := None |}.

(** ivo and kim join game 1 at the same time: both requests read the
    game, with nobody seated, before either writes.  ivo's request
    writes first; kim's request then runs its transaction, with the
    document it read, on the store that ivo's request left. *)
Definition w_doubles_ivo : World :=
  after (joinGame_commit (claims "ivo") 1 doubles_game AsPlayer) w_doubles.

Definition w_doubles_both : World :=
  after (joinGame_commit (claims "kim") 1 doubles_game AsPlayer) w_doubles_ivo.

(** The same two joins, kim's request starting after ivo's has ended. *)
Definition w_doubles_in_turn : World :=
  after (joinGame (identity "kim") (Hex 1) AsPlayer None) w_doubles_ivo.

(** Game 2 is running, one minute later. *)
Definition w_running_later : World :=
  with_clock (clock w_running + 60000) w_running.

(** The sprint is about to be started, a quarter of a second into the
    second, with the scheduler in reach. *)
Definition w_timed_online : World := with_clock 1700250 (online w_timed).

(** A sprint that is to last longer than a [Date] can tell. *)
Definition endless_settings : GameSettings :=
  {| name := "endless"; duration := 9000000000000; startTime := 0;
     endTime := 0; ordered := false; minPlayers := 0; maxPlayers := 4;
     joinMidGame := true; numRequiredTasks := 0 |}.

(** hana creates it: task 1, game 2, state ["ready"]. *)
Definition w_endless : World :=
  online (after (createGame (identity "hana") endless_settings quiz) new_world).

Definition endless_game : GameSchema :=
  {| tasks := [ {| task_id := 1%positive;
                   task_body := "Name the capital of Peru" |} ];
     settings := with_endTime 9000000000000 endless_settings; state := Ready;
     players := []; admins := []; host := "hana"; stopScheduleArn := None |}.

(** A deployment that allows one game only. *)
Definition single_table : Constants :=
  {| ACCESS_TOKEN_KEY := "access-key";
     REFRESH_TOKEN_KEY := "refresh-key";
     ADMIN_CODES := None;
     MAX_ADMINS := 0;
     MAX_GAMES := 1;
     SCHEDULER_GROUP_NAME := "vulture-timers";
     SCHEDULER_ROLE_ARN := "arn:role/scheduler" |}.

End Scenario.

(** * Properties *)

(** ** Running a computation step by step *)

Lemma bind_Ok {A B} (m : M A) (f : A → M B) w b w' :
  bind m f w = (Ok b, w') →
  ∃ a w1, m w = (Ok a, w1) ∧ f a w1 = (Ok b, w').
Proof.
  unfold bind. destruct (m w) as [[a|e] w1]; [eauto | discriminate].
Qed.

Lemma bind_step {A B} (m : M A) (f : A → M B) w a w1 :
  m w = (Ok a, w1) → bind m f w = f a w1.
Proof. unfold bind. by intros ->. Qed.

Lemma bind_ret {A B} (a : A) (f : A → M B) w : bind (ret a) f w = f a w.
Proof. reflexivity. Qed.

Lemma bind_Throw {A B} (m : M A) (f : A → M B) w e w1 :
  m w = (Throw e, w1) → bind m f w = (Throw e, w1).
Proof. unfold bind. by intros ->. Qed.

Lemma then_Ok {A B} (m : M A) (f : A → M B) w b w' :
  then_ m f w = (Ok b, w') →
  ∃ a w1, m w = (Ok a, w1) ∧ f a w1 = (Ok b, w').
Proof.
  unfold then_. destruct (m w) as [[a|e] w1]; [eauto | discriminate].
Qed.

Lemma ret_Ok {A} (a b : A) w w' : ret a w = (Ok b, w') → b = a ∧ w' = w.
Proof. unfold ret. by intros [= -> ->]. Qed.

Lemma assert_Ok value message w u w' :
  assert value message w = (Ok u, w') → value = true ∧ w' = w.
Proof. unfold assert. destruct value; [by intros [= _ ->] | discriminate]. Qed.

Lemma assert_true message w : assert true message w = (Ok tt, w).
Proof. reflexivity. Qed.

Lemma assert_false message w :
  assert false message w = (Throw (AssertionError message), w).
Proof. reflexivity. Qed.

Lemma assert_defined_Ok {A} (value : option A) message w a w' :
  assert_defined value message w = (Ok a, w') → value = Some a ∧ w' = w.
Proof. destruct value; [by intros [= -> ->] | discriminate]. Qed.

Lemma liftR_Ok {A} (r : Result A) w a w' :
  liftR r w = (Ok a, w') → r = Ok a ∧ w' = w.
Proof. destruct r; [by intros [= -> ->] | discriminate]. Qed.

Lemma ObjectId_of_Ok raw w id w' :
  ObjectId_of raw w = (Ok id, w') → raw = Hex id ∧ w' = w.
Proof. destruct raw; [by intros [= -> ->] | discriminate]. Qed.

Lemma games_findOne_Ok id w o w' :
  games_findOne id w = (Ok o, w') → gameColl w !! id = o ∧ w' = w.
Proof. by intros [= <- <-]. Qed.

(** Splits a successful run into the successful runs of its steps. *)
Ltac inv_run :=
  repeat match goal with
  | H : bind _ _ _ = (Ok _, _) |- _ =>
      apply bind_Ok in H as (? & ? & ? & H); cbv beta in H
  | H : then_ _ _ _ = (Ok _, _) |- _ =>
      apply then_Ok in H as (? & ? & ? & H); cbv beta in H
  | H : assert _ _ _ = (Ok _, _) |- _ => apply assert_Ok in H as [H ->]
  | H : assert_defined _ _ _ = (Ok _, _) |- _ =>
      apply assert_defined_Ok in H as [-> ->]
  | H : liftR _ _ = (Ok _, _) |- _ => apply liftR_Ok in H as [H ->]
  | H : ObjectId_of _ _ = (Ok _, _) |- _ =>
      apply ObjectId_of_Ok in H as [H ->];
      first [injection H as <- | subst]
  | H : games_findOne _ _ = (Ok _, _) |- _ =>
      apply games_findOne_Ok in H as [H ->]
  | H : ret _ _ = (Ok _, _) |- _ => apply ret_Ok in H as [-> ->]
  end.

Lemma with_nextId_same w : with_nextId (nextId w) w = w.
Proof. by destruct w. Qed.

Section Properties.
Context `{Constants}.

(** ** Credentials *)

Lemma upgradeCredentials_claims (t : UserToken) (g : ObjectId) (r : UserRole) :
  upgradeCredentials t g r =
  {| accessToken :=
       jwt_sign {| userid := userid t; username := username t;
                   gameId := Some g; role := Some r |}
                ACCESS_TOKEN_KEY "15min";
     refreshToken :=
       jwt_sign {| userid := userid t; username := username t;
                   gameId := Some g; role := Some r |}
                REFRESH_TOKEN_KEY "3hr" |}.
Proof. reflexivity. Qed.

(** C9. Two identities with the same [userid] and [username], whatever
    game scope either of them carries, are upgraded to the same
    credentials for a given game and role; the claims of both tokens are
    the [userid] and [username] of the identity, the game and the role
    passed in, and nothing else. *)
Theorem upgradeCredentials_no_ambient_scope
    (t1 t2 : UserToken) (g : ObjectId) (r : UserRole) :
  userid t1 = userid t2 →
  username t1 = username t2 →
  upgradeCredentials t1 g r = upgradeCredentials t2 g r
  ∧ jwt_verify (accessToken (upgradeCredentials t1 g r)) ACCESS_TOKEN_KEY
    = Ok {| userid := userid t1; username := username t1;
            gameId := Some g; role := Some r |}
  ∧ jwt_verify (refreshToken (upgradeCredentials t1 g r)) REFRESH_TOKEN_KEY
    = Ok {| userid := userid t1; username := username t1;
            gameId := Some g; role := Some r |}.
Proof.
  intros Hid Hname. rewrite !upgradeCredentials_claims, Hid, Hname.
  split; [reflexivity |]. simpl. rewrite !bool_decide_eq_true_2 by done. done.
Qed.

(** ** Creating a game *)

Lemma assign_ids_run (l : list TaskSchema) w :
  ∃ l' n,
    assign_ids l w = (Ok l', with_nextId n w)
    ∧ (nextId w ≤ n)%positive
    ∧ map task_body l' = map task_body l
    ∧ Forall (λ t, (nextId w ≤ task_id t < n)%positive) l'.
Proof.
  revert w. induction l as [|t l IH]; intros w.
  - exists [], (nextId w). rewrite with_nextId_same. by repeat split.
  - destruct (IH (with_nextId (Pos.succ (nextId w)) w))
      as (l' & n & Hrun & Hle & Hbody & Hfresh).
    simpl in Hle. exists ({| task_id := nextId w; task_body := task_body t |} :: l'), n.
    split; [| split; [lia | split]].
    + simpl. unfold bind, new_ObjectId. rewrite Hrun. reflexivity.
    + simpl. by rewrite Hbody.
    + constructor; [simpl; lia |].
      eapply Forall_impl; [exact Hfresh |]. simpl. intros; lia.
Qed.

(** What a successful [createGame] has done. *)
Lemma createGame_Ok token settings0 tasks0 w c w' :
  createGame token settings0 tasks0 w = (Ok c, w') →
  ∃ decoded id g,
    jwt_verify token ACCESS_TOKEN_KEY = Ok decoded
    ∧ c = {| creds := upgradeCredentials decoded id Host;
             gameid := Hex id;
             taskids := map (λ t, Hex (task_id t)) (tasks g) |}
    ∧ gameColl w !! id = None
    ∧ gameColl w' = <[id := g]> (gameColl w)
    ∧ playerColl w' = playerColl w
    ∧ map task_body (tasks g) = map task_body tasks0
    ∧ Forall (λ t, (nextId w ≤ task_id t)%positive) (tasks g)
    ∧ sans_timestamps (settings g) = sans_timestamps settings0
    ∧ state g = (if minPlayers settings0 =? 0 then Ready else NotReady)
    ∧ players g = [] ∧ admins g = [] ∧ host g = username decoded.
Proof.
  unfold createGame. intros Hrun. inv_run.
  destruct (assign_ids_run tasks0 w) as (l' & n & Hids & Hle & Hbody & Hfresh).
  match goal with
  | H1 : games_find_toArray w = _, H2 : assign_ids _ _ = _ |- _ =>
      injection H1 as <- <-; rewrite Hids in H2; injection H2 as <- <-
  end.
  match goal with
  | H1 : games_insertOne _ _ = _ |- _ =>
      unfold games_insertOne, bind, new_ObjectId in H1; simpl in H1;
      destruct (gameColl w !! n) eqn:Hnone; [discriminate |];
      injection H1 as <- <-
  end.
  simpl in Hrun. apply ret_Ok in Hrun as [-> ->].
  eexists _, n, {| tasks := l'; settings := _; state := _; players := [];
                   admins := []; host := _; stopScheduleArn := None |}.
  split; [eassumption |]. split; [reflexivity |].
  split; [done |]. split; [reflexivity |]. split; [reflexivity |].
  split; [done |]. split.
  { eapply Forall_impl; [exact Hfresh |]. simpl. intros; lia. }
  split.
  { simpl. by destruct (duration settings0 =? 0), settings0. }
  split.
  { simpl. by destruct (duration settings0 =? 0). }
  done.
Qed.

(** [createGame] succeeds when the token verifies, the number of games
    is below [MAX_GAMES], and the generator has not yet handed out the
    ids from [nextId] on. *)
Lemma createGame_succeeds token settings0 tasks0 w d :
  jwt_verify token ACCESS_TOKEN_KEY = Ok d →
  Z.of_nat (size (gameColl w)) < MAX_GAMES →
  (∀ id, (nextId w ≤ id)%positive → gameColl w !! id = None) →
  ∃ c w', createGame token settings0 tasks0 w = (Ok c, w').
Proof.
  intros Hd Hroom Hfresh.
  destruct (assign_ids_run tasks0 w) as (l' & n & Hids & Hle & _ & _).
  unfold createGame, games_insertOne, bind, games_find_toArray, new_ObjectId.
  rewrite length_map_to_list, (proj2 (Z.ltb_lt _ _) Hroom). simpl.
  rewrite Hd. simpl. rewrite Hids. simpl. rewrite (Hfresh n Hle). simpl.
  by eexists _, _.
Qed.

(** C8. A game that [createGame] inserts starts in state ["ready"] when
    [settings.minPlayers == 0] and in state ["not ready"] otherwise. *)
Theorem createGame_initial_state token settings0 tasks0 w c w' :
  createGame token settings0 tasks0 w = (Ok c, w') →
  ∃ id g,
    gameid c = Hex id
    ∧ gameColl w !! id = None
    ∧ gameColl w' !! id = Some g
    ∧ (state g = Ready ↔ minPlayers settings0 = 0)
    ∧ (state g = NotReady ↔ minPlayers settings0 ≠ 0).
Proof.
  intros Hrun.
  destruct (createGame_Ok _ _ _ _ _ _ Hrun)
    as (d & id & g & _ & -> & Hnew & Hcoll & _ & _ & _ & _ & Hst & _).
  exists id, g. split; [done |]. split; [done |].
  split; [by rewrite Hcoll, lookup_insert_eq |].
  rewrite Hst. destruct (Z.eqb_spec (minPlayers settings0) 0); split; split;
    intros; try done; congruence.
Qed.

(** ** Joining *)

Lemma joinGame_transaction_admin d gid g w :
  joinGame_transaction d gid g AsAdmin w =
  (gameRes <- games_updateOne gid (join_update AsAdmin (username d) g) ;;
   assert (upd_acknowledged gameRes && (modifiedCount gameRes =? 1))
          "Operation unsuccessful") w.
Proof. reflexivity. Qed.

Lemma joinGame_transaction_player d gid g w :
  joinGame_transaction d gid g AsPlayer w =
  (playerRes <- players_insertOne
                  {| player_gameId := gid;
                     player_username := username d;
                     points := 0;
                     tasksSubmitted := [];
                     done := if numRequiredTasks (settings g) =? 0
                             then true else false |} ;;
   (assert (ins_acknowledged playerRes
            && bool_decide (insertedId playerRes ≠ None))
           "Create operation unsuccessful" ;;;
    gameRes <- games_updateOne gid (join_update AsPlayer (username d) g) ;;
    assert (upd_acknowledged gameRes && (modifiedCount gameRes =? 1))
           "Operation unsuccessful")) w.
Proof.
  unfold joinGame_transaction, join_update, fills_minimum, bind, ret. simpl.
  match goal with
  | |- context [players_insertOne ?p w] =>
      destruct (players_insertOne p w) as [[r|e] w1]; [| reflexivity]
  end.
  destruct (assert _ _ w1) as [[u|e] w2]; [| reflexivity].
  by destruct (bool_decide (state g = NotReady)
               && (Z.of_nat (length (players g)) =? minPlayers (settings g) - 1)).
Qed.

Lemma update_then_assert gid u message w :
  (res <- games_updateOne gid u ;;
   assert (upd_acknowledged res && (modifiedCount res =? 1)) message) w =
  match gameColl w !! gid with
  | Some g =>
      if bool_decide (apply_update u g = g)
      then (Throw (AssertionError message), w)
      else (Ok tt, with_gameColl (<[gid := apply_update u g]> (gameColl w)) w)
  | None => (Throw (AssertionError message), w)
  end.
Proof.
  unfold bind, games_updateOne. destruct (gameColl w !! gid); [| reflexivity].
  by case_bool_decide.
Qed.

Lemma players_insertOne_Ok p w r w' :
  players_insertOne p w = (Ok r, w') →
  gameColl w' = gameColl w ∧ openSessions w' = openSessions w
  ∧ schedulerCalls w' = schedulerCalls w
  ∧ ins_acknowledged r = true ∧ insertedId r ≠ None.
Proof.
  unfold players_insertOne, bind, new_ObjectId. simpl.
  destruct (playerColl w !! nextId w); [discriminate |].
  by intros [= <- <-].
Qed.

Lemma players_insertOne_Throw p w e w' :
  players_insertOne p w = (Throw e, w') →
  gameColl w' = gameColl w ∧ openSessions w' = openSessions w.
Proof.
  unfold players_insertOne, bind, new_ObjectId. simpl.
  destruct (playerColl w !! nextId w); [| discriminate].
  by intros [= <- <-].
Qed.

(** The callback of [joinGame] leaves the count of open sessions alone. *)
Lemma joinGame_transaction_sessions d gid g role w r w' :
  joinGame_transaction d gid g role w = (r, w') →
  openSessions w' = openSessions w.
Proof.
  destruct role.
  - rewrite joinGame_transaction_player. unfold bind at 1.
    destruct (players_insertOne _ w) as [[res|e] w1] eqn:Hins.
    + apply players_insertOne_Ok in Hins as (_ & Hs & _ & -> & Hid).
      rewrite bool_decide_eq_true_2 by done. simpl.
      rewrite bind_ret, update_then_assert.
      destruct (gameColl w1 !! gid); [case_bool_decide |];
        intros [= <- <-]; done.
    + apply players_insertOne_Throw in Hins as [_ Hs]. by intros [= <- <-].
  - rewrite joinGame_transaction_admin, update_then_assert.
    destruct (gameColl w !! gid); [case_bool_decide |]; by intros [= <- <-].
Qed.

(** What a successful run of the callback of [joinGame] has done. *)
Lemma joinGame_transaction_Ok d gid g role w u w' :
  joinGame_transaction d gid g role w = (Ok u, w') →
  ∃ g0,
    gameColl w !! gid = Some g0
    ∧ apply_update (join_update role (username d) g) g0 ≠ g0
    ∧ gameColl w' =
      <[gid := apply_update (join_update role (username d) g) g0]> (gameColl w)
    ∧ schedulerCalls w' = schedulerCalls w.
Proof.
  destruct role.
  - rewrite joinGame_transaction_player. intros Hrun.
    apply bind_Ok in Hrun as (res & w1 & Hins & Hrun). cbv beta in Hrun.
    apply players_insertOne_Ok in Hins as (Hg & _ & Hc & Hack & Hid).
    rewrite Hack, bool_decide_eq_true_2 in Hrun by done. simpl in Hrun.
    rewrite bind_ret, update_then_assert, Hg in Hrun.
    destruct (gameColl w !! gid) as [g0|]; [| discriminate].
    case_bool_decide; [discriminate |]. injection Hrun as Hw. subst w'.
    exists g0. simpl. by rewrite Hc.
  - rewrite joinGame_transaction_admin, update_then_assert.
    destruct (gameColl w !! gid) as [g0|]; [| discriminate].
    case_bool_decide; [discriminate |]. intros [= Hw]. subst w'.
    by exists g0.
Qed.

Lemma joinGame_commit_run d gid g role w :
  joinGame_commit d gid g role w =
  match joinGame_transaction d gid g role
          (with_openSessions (S (openSessions w)) w) with
  | (Ok _, w2) =>
      (Ok (upgradeCredentials d gid (roleOf role)),
       with_openSessions (Nat.pred (openSessions w2)) w2)
  | (Throw e, w2) => (Throw e, w2)
  end.
Proof.
  unfold joinGame_commit, bind, then_, startSession, withTransaction, try_catch.
  simpl. by destruct (joinGame_transaction _ _ _ _ _) as [[u|e] w2].
Qed.

(** [joinGame] from the start of the session on: the session is ended
    when the callback returns, and is still open when the callback
    throws. *)
Lemma joinGame_commit_sessions d gid g role w r w' :
  joinGame_commit d gid g role w = (r, w') →
  openSessions w' =
  match r with Ok _ => openSessions w | Throw _ => S (openSessions w) end.
Proof.
  rewrite joinGame_commit_run.
  destruct (joinGame_transaction _ _ _ _ _) as [[u|e] w2] eqn:Htx;
    apply joinGame_transaction_sessions in Htx; intros [= <- <-]; simpl;
    by rewrite Htx.
Qed.

Lemma joinGame_commit_Ok d gid g role w c w' :
  joinGame_commit d gid g role w = (Ok c, w') →
  ∃ g0,
    gameColl w !! gid = Some g0
    ∧ c = upgradeCredentials d gid (roleOf role)
    ∧ apply_update (join_update role (username d) g) g0 ≠ g0
    ∧ gameColl w' =
      <[gid := apply_update (join_update role (username d) g) g0]> (gameColl w)
    ∧ schedulerCalls w' = schedulerCalls w.
Proof.
  rewrite joinGame_commit_run.
  destruct (joinGame_transaction _ _ _ _ _) as [[u|e] w2] eqn:Htx;
    [| discriminate].
  apply joinGame_transaction_Ok in Htx as (g0 & Hg & Hne & Hcoll & Hcalls).
  intros [= <- <-]. exists g0. by repeat split.
Qed.

Lemma includes_false l x : includes l x = false ↔ x ∉ l.
Proof. unfold includes. by rewrite bool_decide_eq_false. Qed.

Lemma addToSet_new x l : x ∉ l → addToSet x l = l ++ [x].
Proof. intros Hx. unfold addToSet. by rewrite (proj2 (includes_false l x)). Qed.

Lemma apply_join_update role user g g0 :
  let g' := apply_update (join_update role user g) g0 in
  settings g' = settings g0
  ∧ state g' = (if fills_minimum role g then Ready else state g0)
  ∧ players g' = match role with
                 | AsPlayer => addToSet user (players g0)
                 | AsAdmin => players g0
                 end
  ∧ admins g' = match role with
                | AsPlayer => admins g0
                | AsAdmin => addToSet user (admins g0)
                end.
Proof.
  unfold apply_update, join_update.
  destruct role, (fills_minimum _ g); simpl; done.
Qed.

Lemma fills_minimum_true role g :
  fills_minimum role g = true ↔
  role = AsPlayer ∧ state g = NotReady
  ∧ Z.of_nat (length (players g)) = minPlayers (settings g) - 1.
Proof.
  unfold fills_minimum.
  rewrite !andb_true_iff, !bool_decide_eq_true, Z.eqb_eq. tauto.
Qed.

(** What the checks of [joinGame] have established when they pass. *)
Lemma joinGame_checks_Ok token raw role code w r w' :
  joinGame_checks token raw role code w = (Ok r, w') →
  ∃ gid d g,
    r = (gid, d, g) ∧ w' = w ∧ raw = Hex gid
    ∧ jwt_verify token ACCESS_TOKEN_KEY = Ok d
    ∧ gameColl w !! gid = Some g
    ∧ (username d ≠ host g) ∧ (username d ∉ players g)
    ∧ (username d ∉ admins g)
    ∧ (role = AsPlayer →
       Z.of_nat (length (players g)) < maxPlayers (settings g)
       ∧ state g ≠ Ended)
    ∧ (role = AsAdmin →
       admin_code_ok code ADMIN_CODES = true
       ∧ Z.of_nat (length (admins g)) < MAX_ADMINS).
Proof.
  unfold joinGame_checks. intros Hrun. inv_run.
  repeat match goal with
  | Hb : _ && _ = true |- _ => apply andb_true_iff in Hb as [? ?]
  | Hb : negb _ = true |- _ => apply negb_true_iff, includes_false in Hb
  | Hb : bool_decide _ = true |- _ => apply bool_decide_eq_true in Hb
  end.
  eexists _, _, _. repeat split; try eassumption; try done; subst role;
    simpl in *.
  - lia.
  - by case_bool_decide.
  - done.
  - lia.
Qed.

(** What a successful [joinGame] has done. *)
Lemma joinGame_Ok token raw role code w c w' :
  joinGame token raw role code w = (Ok c, w') →
  ∃ gid d g,
    raw = Hex gid
    ∧ jwt_verify token ACCESS_TOKEN_KEY = Ok d
    ∧ gameColl w !! gid = Some g
    ∧ (username d ∉ players g) ∧ (username d ∉ admins g)
    ∧ (role = AsPlayer →
       Z.of_nat (length (players g)) < maxPlayers (settings g))
    ∧ c = upgradeCredentials d gid (roleOf role)
    ∧ gameColl w' =
      <[gid := apply_update (join_update role (username d) g) g]> (gameColl w)
    ∧ openSessions w' = openSessions w.
Proof.
  unfold joinGame. intros Hrun.
  apply bind_Ok in Hrun as (r & w1 & Hchk & Hrun). cbv beta in Hrun.
  apply joinGame_checks_Ok in Hchk
    as (gid & d & g & -> & -> & -> & Hd & Hg & _ & Hp & Ha & Hcap & _).
  exists gid, d, g.
  pose proof (joinGame_commit_sessions _ _ _ _ _ _ _ Hrun) as Hs.
  apply joinGame_commit_Ok in Hrun as (g0 & Hg0 & -> & _ & Hcoll & _).
  rewrite Hg in Hg0. injection Hg0 as <-.
  repeat split; try done. intros Hr. by apply Hcap.
Qed.

(** The document that a successful join leaves when nothing else
    writes between its read and its update: the username is added to the
    roster, and [state] becomes ["ready"] when the join is a player
    join, the game is ["not ready"] and its players array has
    [minPlayers - 1] entries; else the state is kept. *)
Lemma joinGame_ready_transition token raw role code w c w' :
  joinGame token raw role code w = (Ok c, w') →
  ∃ gid d g g',
    raw = Hex gid
    ∧ jwt_verify token ACCESS_TOKEN_KEY = Ok d
    ∧ gameColl w !! gid = Some g
    ∧ g' = apply_update (join_update role (username d) g) g
    ∧ gameColl w' = <[gid := g']> (gameColl w)
    ∧ match role with
      | AsPlayer => players g' = players g ++ [username d]
                    ∧ admins g' = admins g
      | AsAdmin => admins g' = admins g ++ [username d]
                   ∧ players g' = players g
      end
    ∧ (role = AsPlayer → state g = NotReady →
       Z.of_nat (length (players g)) = minPlayers (settings g) - 1 →
       upd_set (join_update role (username d) g)
       = Some {| set_state := Some Ready; set_startTime := None;
                 set_endTime := None |}
       ∧ state g' = Ready)
    ∧ (¬ (role = AsPlayer ∧ state g = NotReady
          ∧ Z.of_nat (length (players g)) = minPlayers (settings g) - 1) →
       upd_set (join_update role (username d) g) = None
       ∧ state g' = state g).
Proof.
  intros Hrun.
  apply joinGame_Ok in Hrun
    as (gid & d & g & -> & Hd & Hg & Hp & Ha & _ & _ & Hcoll & _).
  exists gid, d, g, (apply_update (join_update role (username d) g) g).
  destruct (apply_join_update role (username d) g g) as (_ & Hst & Hpl & Had).
  repeat split; try done.
  - destruct role; rewrite Hpl, Had; by rewrite addToSet_new.
  - unfold join_update. simpl.
    by rewrite (proj2 (fills_minimum_true role g)).
  - rewrite Hst. by rewrite (proj2 (fills_minimum_true role g)).
  - unfold join_update. simpl.
    destruct (fills_minimum role g) eqn:Hf; [| done].
    by apply fills_minimum_true in Hf.
  - rewrite Hst. destruct (fills_minimum role g) eqn:Hf; [| done].
    by apply fills_minimum_true in Hf.
Qed.

(** A player join on a full game throws and leaves the world as it is. *)
Lemma joinGame_full token gid code w g :
  gameColl w !! gid = Some g →
  maxPlayers (settings g) ≤ Z.of_nat (length (players g)) →
  ∃ e,
    joinGame token (Hex gid) AsPlayer code w = (Throw e, w)
    ∧ ∀ d, jwt_verify token ACCESS_TOKEN_KEY = Ok d →
           username d ≠ host g → username d ∉ players g →
           username d ∉ admins g →
           e = PlayerCapacityReached.
Proof.
  intros Hg Hfull. unfold joinGame, joinGame_checks, bind. simpl.
  destruct (jwt_verify token ACCESS_TOKEN_KEY) as [d|e] eqn:Hd; simpl.
  2: { eexists. split; [reflexivity |]. intros; discriminate. }
  rewrite Hg. simpl.
  destruct (bool_decide (username d ≠ host g)
            && negb (includes (players g) (username d))
            && negb (includes (admins g) (username d))) eqn:Hnew; simpl.
  - rewrite (proj2 (Z.ltb_ge _ _) Hfull). simpl. by eexists.
  - eexists. split; [reflexivity |]. intros d0 [= <-] Hh Hp Ha.
    apply includes_false in Hp, Ha. rewrite Hp, Ha in Hnew.
    by rewrite bool_decide_eq_true_2 in Hnew.
Qed.

(** ** The lifecycle guards *)

Lemma startGame_Ok_state token gid arn ev w c w' g :
  gameColl w !! gid = Some g →
  startGame token (Hex gid) arn ev w = (Ok c, w') → state g = Ready.
Proof.
  intros Hg. unfold startGame. intros Hrun. inv_run.
  match goal with
  | Hb : bool_decide _ = true, Hl : gameColl w !! _ = Some _ |- _ =>
      apply bool_decide_eq_true in Hb; rewrite Hg in Hl; by injection Hl as <-
  end.
Qed.

Lemma stopGame_Ok_state token gid fs w c w' g :
  gameColl w !! gid = Some g →
  stopGame token (Hex gid) fs w = (Ok c, w') → state g = Running.
Proof.
  intros Hg. unfold stopGame. intros Hrun. inv_run.
  match goal with
  | Hb : bool_decide _ = true, Hl : gameColl w !! _ = Some _ |- _ =>
      apply bool_decide_eq_true in Hb; rewrite Hg in Hl; by injection Hl as <-
  end.
Qed.

Lemma restartGame_Ok_state token gid w c w' g :
  gameColl w !! gid = Some g →
  restartGame token (Hex gid) w = (Ok c, w') → state g = Ended.
Proof.
  intros Hg. unfold restartGame. intros Hrun. inv_run.
  match goal with
  | Hb : bool_decide _ = true, Hl : gameColl w !! _ = Some _ |- _ =>
      apply bool_decide_eq_true in Hb; rewrite Hg in Hl; by injection Hl as <-
  end.
Qed.

Lemma deleteGame_Ok_state token gid w c w' g :
  gameColl w !! gid = Some g →
  deleteGame token (Hex gid) w = (Ok c, w') → state g ≠ Running.
Proof.
  intros Hg. unfold deleteGame, deleteGame_checks. intros Hrun. inv_run.
  match goal with
  | Hb : bool_decide _ = true, Hl : gameColl w !! _ = Some _ |- _ =>
      apply bool_decide_eq_true in Hb; rewrite Hg in Hl; by injection Hl as <-
  end.
Qed.

(** Runs a guarded operation up to the assertion on the state, which
    fails. *)
Ltac run_to_state_guard Hg :=
  unfold bind; simpl;
  match goal with
  | |- context [verifyToken ?t ?g ?r] =>
      destruct (verifyToken t g r) as [d|e0]; simpl;
      [ rewrite Hg; simpl; rewrite bool_decide_eq_false_2 by done; simpl;
        eexists; split; [reflexivity | intros _; unfold InvalidState; tauto]
      | eexists; split; [reflexivity | intros [? [=]]] ]
  end.

Lemma startGame_wrong_state token gid arn ev w g :
  gameColl w !! gid = Some g → state g ≠ Ready →
  ∃ e, startGame token (Hex gid) arn ev w = (Throw e, w)
       ∧ ((∃ d, verifyToken token gid [Host; Admin] = Ok d) → InvalidState e).
Proof. intros Hg Hst. unfold startGame. run_to_state_guard Hg. Qed.

Lemma stopGame_wrong_state token gid fs w g :
  gameColl w !! gid = Some g → state g ≠ Running →
  ∃ e, stopGame token (Hex gid) fs w = (Throw e, w)
       ∧ ((∃ d, verifyToken token gid [Host; Admin] = Ok d) → InvalidState e).
Proof. intros Hg Hst. unfold stopGame. run_to_state_guard Hg. Qed.

Lemma restartGame_wrong_state token gid w g :
  gameColl w !! gid = Some g → state g ≠ Ended →
  ∃ e, restartGame token (Hex gid) w = (Throw e, w)
       ∧ ((∃ d, verifyToken token gid [Host; Admin] = Ok d) → InvalidState e).
Proof. intros Hg Hst. unfold restartGame. run_to_state_guard Hg. Qed.

Lemma deleteGame_wrong_state token gid w g :
  gameColl w !! gid = Some g → state g = Running →
  ∃ e, deleteGame token (Hex gid) w = (Throw e, w)
       ∧ ((∃ d, verifyToken token gid [Host; Admin] = Ok d) → InvalidState e).
Proof.
  intros Hg Hst. unfold deleteGame, deleteGame_checks.
  assert (¬ state g ≠ Running) by (intros Hne; by apply Hne).
  run_to_state_guard Hg.
Qed.

(** C2. [startGame] succeeds only on a game that is ["ready"],
    [stopGame] only on one that is ["running"], [restartGame] only on one
    that is ["ended"], and [deleteGame] never on one that is ["running"].
    Called on a game in any other state, each of them throws and leaves
    the world, hence every game and player document, as it was; the
    failure is the assertion on the state ([InvalidState]) whenever the
    caller holds a host or admin token for the game, and the failure of
    [verifyToken] otherwise. *)
Theorem lifecycle_guards token gid w g :
  gameColl w !! gid = Some g →
  (∀ arn ev c w',
     startGame token (Hex gid) arn ev w = (Ok c, w') → state g = Ready)
  ∧ (∀ fs c w',
       stopGame token (Hex gid) fs w = (Ok c, w') → state g = Running)
  ∧ (∀ c w', restartGame token (Hex gid) w = (Ok c, w') → state g = Ended)
  ∧ (∀ c w', deleteGame token (Hex gid) w = (Ok c, w') → state g ≠ Running)
  ∧ (state g ≠ Ready → ∀ arn ev,
       ∃ e, startGame token (Hex gid) arn ev w = (Throw e, w)
            ∧ ((∃ d, verifyToken token gid [Host; Admin] = Ok d)
               → InvalidState e))
  ∧ (state g ≠ Running → ∀ fs,
       ∃ e, stopGame token (Hex gid) fs w = (Throw e, w)
            ∧ ((∃ d, verifyToken token gid [Host; Admin] = Ok d)
               → InvalidState e))
  ∧ (state g ≠ Ended →
       ∃ e, restartGame token (Hex gid) w = (Throw e, w)
            ∧ ((∃ d, verifyToken token gid [Host; Admin] = Ok d)
               → InvalidState e))
  ∧ (state g = Running →
       ∃ e, deleteGame token (Hex gid) w = (Throw e, w)
            ∧ ((∃ d, verifyToken token gid [Host; Admin] = Ok d)
               → InvalidState e)).
Proof.
  intros Hg. repeat split.
  - intros. by eapply startGame_Ok_state.
  - intros. by eapply stopGame_Ok_state.
  - intros. by eapply restartGame_Ok_state.
  - intros. by eapply deleteGame_Ok_state.
  - intros. by eapply startGame_wrong_state.
  - intros. by eapply stopGame_wrong_state.
  - intros. by eapply restartGame_wrong_state.
  - intros. by eapply deleteGame_wrong_state.
Qed.

(** ** Stopping a game *)

Lemma stopGame_fromSchedule_no_calls token raw w :
  schedulerCalls (stopGame token raw (Some true) w).2 = schedulerCalls w.
Proof.
  unfold stopGame, bind, games_updateOne. destruct raw as [gid|]; simpl; [| done].
  destruct (verifyToken token gid [Host; Admin]); simpl; [| done].
  destruct (gameColl w !! gid) as [g|] eqn:Hg; simpl; [| done].
  case_bool_decide; simpl; [| done].
  rewrite Hg. case_bool_decide; simpl; done.
Qed.

Lemma stopGame_running token gid fs w d g :
  verifyToken token gid [Host; Admin] = Ok d →
  gameColl w !! gid = Some g →
  state g = Running →
  ∃ w' g',
    stopGame token (Hex gid) fs w =
      (Ok {| conf_startTime := startTime (settings g);
             conf_endTime := clock w |}, w')
    ∧ gameColl w' = <[gid := g']> (gameColl w)
    ∧ state g' = Ended
    ∧ endTime (settings g') = clock w
    ∧ playerColl w' = playerColl w
    ∧ (fs ≠ Some true →
       schedulerCalls w' =
       schedulerCalls w ++ [DeleteScheduleCommand (Hex gid) SCHEDULER_GROUP_NAME]).
Proof.
  intros Hv Hg Hst. unfold stopGame, bind, games_updateOne. simpl.
  rewrite Hv. simpl. rewrite Hg. simpl.
  rewrite bool_decide_eq_true_2 by done. simpl. rewrite Hg.
  rewrite bool_decide_eq_false_2.
  2: { intros Heq. apply (f_equal state) in Heq. simpl in Heq. congruence. }
  simpl.
  destruct fs as [[|]|]; simpl.
  - eexists _, _. split; [reflexivity |]. by repeat split.
  - unfold try_catch, bind, scheduler_send. simpl.
    destruct (scheduler w _); simpl;
      (eexists _, _; split; [reflexivity |]; by repeat split).
  - unfold try_catch, bind, scheduler_send. simpl.
    destruct (scheduler w _); simpl;
      (eexists _, _; split; [reflexivity |]; by repeat split).
Qed.

(** C7. [stopGame] called with [fromSchedule = true] sends nothing to
    the scheduler.  Called without the marker on a running game by a
    host or admin, it sends the cancellation, and whatever the scheduler
    answers (done, no such schedule, or any other failure) it returns
    the start time of the game and the current time, with the game
    document set to ["ended"]. *)
Theorem stopGame_timer_cleanup :
  (∀ token raw w,
     schedulerCalls (stopGame token raw (Some true) w).2 = schedulerCalls w)
  ∧ (∀ token gid fs w d g reply,
       verifyToken token gid [Host; Admin] = Ok d →
       gameColl w !! gid = Some g →
       state g = Running →
       fs ≠ Some true →
       scheduler w (DeleteScheduleCommand (Hex gid) SCHEDULER_GROUP_NAME)
         = reply →
       ∃ w' g',
         stopGame token (Hex gid) fs w =
           (Ok {| conf_startTime := startTime (settings g);
                  conf_endTime := clock w |}, w')
         ∧ gameColl w' = <[gid := g']> (gameColl w)
         ∧ state g' = Ended
         ∧ endTime (settings g') = clock w
         ∧ schedulerCalls w' =
           schedulerCalls w
             ++ [DeleteScheduleCommand (Hex gid) SCHEDULER_GROUP_NAME]).
Proof.
  split.
  - apply stopGame_fromSchedule_no_calls.
  - intros token gid fs w d g reply Hv Hg Hst Hfs _.
    destruct (stopGame_running token gid fs w d g Hv Hg Hst)
      as (w' & g' & Hrun & Hcoll & Hst' & Hend & _ & Hcalls).
    exists w', g'. repeat split; try done. by apply Hcalls.
Qed.

(** ** Restarting a game *)

Lemma restartGame_Ok token raw w c w' :
  restartGame token raw w = (Ok c, w') →
  ∃ gid g,
    raw = Hex gid
    ∧ gameColl w !! gid = Some g
    ∧ state g = Ended
    ∧ createGame token (settings g) (tasks g) w = (Ok c, w').
Proof.
  unfold restartGame. intros Hrun. inv_run.
  match goal with
  | Hb : bool_decide _ = true |- _ => apply bool_decide_eq_true in Hb
  end.
  eexists _, _. by repeat split.
Qed.

(** C6, as the code has it.  A successful [restartGame] inserts one new
    game document under an id that no game had, and changes no other
    document: the original game is still stored as it was.  The new game
    has the settings of the original apart from the two timestamps, and
    the tasks of the original in the same order, each under an identifier
    newly drawn from the generator instead of the one it had. *)
Theorem restartGame_new_game token raw w c w' :
  restartGame token raw w = (Ok c, w') →
  ∃ gid g newid g',
    raw = Hex gid
    ∧ gameColl w !! gid = Some g
    ∧ state g = Ended
    ∧ gameid c = Hex newid
    ∧ gameColl w !! newid = None
    ∧ gameColl w' = <[newid := g']> (gameColl w)
    ∧ gameColl w' !! gid = Some g
    ∧ playerColl w' = playerColl w
    ∧ sans_timestamps (settings g') = sans_timestamps (settings g)
    ∧ map task_body (tasks g') = map task_body (tasks g)
    ∧ Forall (λ t, (nextId w ≤ task_id t)%positive) (tasks g')
    ∧ taskids c = map (λ t, Hex (task_id t)) (tasks g').
Proof.
  intros Hrun.
  apply restartGame_Ok in Hrun as (gid & g & -> & Hg & Hst & Hrun).
  apply createGame_Ok in Hrun
    as (d & newid & g' & _ & -> & Hnew & Hcoll & Hpl & Hbody & Hfresh
        & Hset & _).
  exists gid, g, newid, g'. repeat split; try done.
  rewrite Hcoll, lookup_insert_ne; [done |]. intros ->. congruence.
Qed.

(** C10. The game that a successful [restartGame] creates has as its
    host the username of the token presented to [restartGame], whoever
    hosts the original game, and the credentials returned are those of
    that user, scoped to the new game with role ["host"]. *)
Theorem restartGame_host_is_caller token raw w c w' :
  restartGame token raw w = (Ok c, w') →
  ∃ d newid g',
    jwt_verify token ACCESS_TOKEN_KEY = Ok d
    ∧ gameid c = Hex newid
    ∧ gameColl w !! newid = None
    ∧ gameColl w' !! newid = Some g'
    ∧ host g' = username d
    ∧ creds c = upgradeCredentials d newid Host
    ∧ jwt_verify (accessToken (creds c)) ACCESS_TOKEN_KEY
      = Ok {| userid := userid d; username := username d;
              gameId := Some newid; role := Some Host |}.
Proof.
  intros Hrun.
  apply restartGame_Ok in Hrun as (gid & g & -> & Hg & Hst & Hrun).
  apply createGame_Ok in Hrun
    as (d & newid & g' & Hd & -> & Hnew & Hcoll & _ & _ & _ & _ & _ & _ & _
        & Hhost).
  exists d, newid, g'. repeat split; try done.
  - by rewrite Hcoll, lookup_insert_eq.
  - simpl. by rewrite bool_decide_eq_true_2.
Qed.

(** ** Leaving a game *)

Lemma pull_absent x l : x ∉ l → pull x l = l.
Proof.
  intros Hx. unfold pull. induction l as [|y l IH]; [done |].
  apply not_elem_of_cons in Hx as [Hne Hx].
  rewrite filter_cons_True by done. by rewrite IH.
Qed.

Lemma pull_removes x l : x ∉ pull x l.
Proof. unfold pull. rewrite list_elem_of_filter. tauto. Qed.

Lemma pull_present x l : x ∈ l → pull x l ≠ l.
Proof. intros Hx Heq. apply (pull_removes x l). by rewrite Heq. Qed.

(** A caller who passes the authorization and is in the players array is
    taken out of it. *)
Lemma leaveGame_player token gid w d g :
  verifyToken token gid [Player; Admin] = Ok d →
  gameColl w !! gid = Some g →
  username d ∈ players g →
  leaveGame token (Hex gid) w =
    (Ok tt, with_gameColl
              (<[gid := with_players (pull (username d) (players g)) g]>
                 (gameColl w)) w).
Proof.
  intros Hv Hg Hin. unfold leaveGame. simpl. rewrite bind_ret.
  unfold bind at 1. rewrite Hv. simpl.
  rewrite update_then_assert, Hg.
  rewrite bool_decide_eq_false_2; [done |].
  unfold apply_update. simpl. intros Heq. apply (f_equal players) in Heq.
  by apply pull_present in Heq.
Qed.

(** A caller who passes the authorization and is not in the players
    array, as an admin is not, gets the failure and stays where they
    are: [leaveGame] pulls from [players] only. *)
Lemma leaveGame_not_player token gid w d g :
  verifyToken token gid [Player; Admin] = Ok d →
  gameColl w !! gid = Some g →
  username d ∉ players g →
  leaveGame token (Hex gid) w = (Throw NoPlayerRemoved, w).
Proof.
  intros Hv Hg Hout. unfold leaveGame. simpl. rewrite bind_ret.
  unfold bind at 1. rewrite Hv. simpl.
  rewrite update_then_assert, Hg.
  rewrite bool_decide_eq_true_2; [done |].
  unfold apply_update. simpl. rewrite pull_absent by done. by destruct g.
Qed.

(** ** Deleting a game *)

Lemma deleteGame_transaction_sessions gid w r w' :
  deleteGame_transaction gid w = (r, w') →
  openSessions w' = openSessions w.
Proof.
  unfold deleteGame_transaction, bind, games_deleteOne, players_deleteMany.
  destruct (gameColl w !! gid); simpl; by intros [= <- <-].
Qed.

(** [deleteGame] from the start of the session on: the session is ended
    when the callback returns, and is still open when the callback
    throws. *)
Lemma deleteGame_commit_sessions gid g w r w' :
  deleteGame_commit gid g w = (r, w') →
  openSessions w' =
  match r with Ok _ => openSessions w | Throw _ => S (openSessions w) end.
Proof.
  unfold deleteGame_commit, bind, then_, startSession, withTransaction,
    try_catch, endSession. simpl.
  destruct (deleteGame_transaction _ _) as [[u|e] w2] eqn:Htx;
    apply deleteGame_transaction_sessions in Htx; intros [= <- <-]; simpl;
    by rewrite Htx.
Qed.

End Properties.

(** ** The functions at work in the concrete deployment *)

Section Scenarios.
#[local] Existing Instance demo_constants.

Lemma upgradeCredentials_no_ambient_scope_witness :
  userid (elsewhere "ivo") = userid (claims "ivo")
  ∧ username (elsewhere "ivo") = username (claims "ivo")
  ∧ upgradeCredentials (elsewhere "ivo") 1 Player
    = upgradeCredentials (claims "ivo") 1 Player
  ∧ jwt_verify (accessToken (upgradeCredentials (elsewhere "ivo") 1 Player))
               ACCESS_TOKEN_KEY
    = Ok {| userid := "ivo"; username := "ivo";
            gameId := Some 1%positive; role := Some Player |}
  ∧ jwt_verify (refreshToken (upgradeCredentials (elsewhere "ivo") 1 Player))
               REFRESH_TOKEN_KEY
    = Ok {| userid := "ivo"; username := "ivo";
            gameId := Some 1%positive; role := Some Player |}.
Proof.
  split; [reflexivity |]. split; [reflexivity |].
  apply (upgradeCredentials_no_ambient_scope
           (elsewhere "ivo") (claims "ivo") 1 Player); reflexivity.
Defined.

Lemma createGame_initial_state_witness :
  createGame (identity "hana") duel_settings [] new_world
  = (Ok {| creds := upgradeCredentials (claims "hana") 1 Host;
           gameid := Hex 1; taskids := [] |}, w_waiting)
  ∧ ∃ id g,
      Hex 1 = Hex id
      ∧ gameColl new_world !! id = None
      ∧ gameColl w_waiting !! id = Some g
      ∧ (state g = Ready ↔ minPlayers duel_settings = 0)
      ∧ (state g = NotReady ↔ minPlayers duel_settings ≠ 0).
Proof.
  split; [vm_compute; reflexivity |].
  apply (createGame_initial_state (identity "hana") duel_settings [] new_world
           {| creds := upgradeCredentials (claims "hana") 1 Host;
              gameid := Hex 1; taskids := [] |} w_waiting).
  vm_compute; reflexivity.
Defined.

Lemma lifecycle_guards_witness :
  gameColl w_waiting !! 1%positive = Some waiting_game
  ∧ state waiting_game ≠ Ready
  ∧ (∃ d, verifyToken (scoped "hana" 1 Host) 1 [Host; Admin] = Ok d)
  ∧ ∃ e,
      startGame (scoped "hana" 1 Host) (Hex 1) None None w_waiting
      = (Throw e, w_waiting)
      ∧ InvalidState e.
Proof.
  assert (Hg : gameColl w_waiting !! 1%positive = Some waiting_game)
    by (vm_compute; reflexivity).
  assert (Hst : state waiting_game ≠ Ready) by discriminate.
  assert (Hauth : ∃ d, verifyToken (scoped "hana" 1 Host) 1 [Host; Admin]
                       = Ok d)
    by (eexists; vm_compute; reflexivity).
  destruct (lifecycle_guards (scoped "hana" 1 Host) 1%positive w_waiting
              waiting_game Hg) as (_ & _ & _ & _ & Hstart & _).
  destruct (Hstart Hst None None) as (e & Hrun & Hkind).
  split; [exact Hg |]. split; [exact Hst |]. split; [exact Hauth |].
  exists e. split; [exact Hrun | exact (Hkind Hauth)].
Defined.

Lemma stopGame_timer_cleanup_witness :
  verifyToken (scoped "hana" 2 Host) 2 [Host; Admin]
  = Ok (with_role Host (with_gameId 2 (claims "hana")))
  ∧ gameColl w_running !! 2%positive = Some running_game
  ∧ state running_game = Running
  ∧ None ≠ Some true
  ∧ scheduler w_running (DeleteScheduleCommand (Hex 2) SCHEDULER_GROUP_NAME)
    = Failed "connect ETIMEDOUT"
  ∧ ∃ w' g',
      stopGame (scoped "hana" 2 Host) (Hex 2) None w_running
      = (Ok {| conf_startTime := startTime (settings running_game);
               conf_endTime := clock w_running |}, w')
      ∧ gameColl w' = <[2%positive := g']> (gameColl w_running)
      ∧ state g' = Ended
      ∧ endTime (settings g') = clock w_running
      ∧ schedulerCalls w' =
        schedulerCalls w_running
          ++ [DeleteScheduleCommand (Hex 2) SCHEDULER_GROUP_NAME].
Proof.
  assert (Hv : verifyToken (scoped "hana" 2 Host) 2 [Host; Admin]
               = Ok (with_role Host (with_gameId 2 (claims "hana"))))
    by (vm_compute; reflexivity).
  assert (Hg : gameColl w_running !! 2%positive = Some running_game)
    by (vm_compute; reflexivity).
  assert (Hfs : @None bool ≠ Some true) by discriminate.
  assert (Hreply : scheduler w_running
                     (DeleteScheduleCommand (Hex 2) SCHEDULER_GROUP_NAME)
                   = Failed "connect ETIMEDOUT") by reflexivity.
  split; [exact Hv |]. split; [exact Hg |]. split; [reflexivity |].
  split; [exact Hfs |]. split; [exact Hreply |].
  exact (proj2 stopGame_timer_cleanup (scoped "hana" 2 Host) 2%positive None
           w_running _ running_game _ Hv Hg eq_refl Hfs Hreply).
Defined.

Lemma restartGame_new_game_witness :
  restartGame (scoped "jo" 2 Admin) (Hex 2) w_ended
  = (Ok {| creds := upgradeCredentials (claims "jo") 4 Host;
           gameid := Hex 4; taskids := [Hex 3] |}, w_restarted)
  ∧ ∃ gid g newid g',
      Hex 2 = Hex gid
      ∧ gameColl w_ended !! gid = Some g
      ∧ state g = Ended
      ∧ Hex 4 = Hex newid
      ∧ gameColl w_ended !! newid = None
      ∧ gameColl w_restarted = <[newid := g']> (gameColl w_ended)
      ∧ gameColl w_restarted !! gid = Some g
      ∧ playerColl w_restarted = playerColl w_ended
      ∧ sans_timestamps (settings g') = sans_timestamps (settings g)
      ∧ map task_body (tasks g') = map task_body (tasks g)
      ∧ Forall (λ t, (nextId w_ended ≤ task_id t)%positive) (tasks g')
      ∧ [Hex 3] = map (λ t, Hex (task_id t)) (tasks g').
Proof.
  split; [vm_compute; reflexivity |].
  apply (restartGame_new_game (scoped "jo" 2 Admin) (Hex 2) w_ended
           {| creds := upgradeCredentials (claims "jo") 4 Host;
              gameid := Hex 4; taskids := [Hex 3] |} w_restarted).
  vm_compute; reflexivity.
Defined.

(** C6, as stated, fails: the tasks of the game that [restartGame]
    creates are not the tasks of the original.  jo restarts game 2, whose
    one task has identifier 1; the task of the new game 4 has
    identifier 3. *)
Lemma restartGame_tasks_not_verbatim :
  gameColl w_ended !! 2%positive = Some ended_game
  ∧ state ended_game = Ended
  ∧ restartGame (scoped "jo" 2 Admin) (Hex 2) w_ended
    = (Ok {| creds := upgradeCredentials (claims "jo") 4 Host;
             gameid := Hex 4; taskids := [Hex 3] |}, w_restarted)
  ∧ ∃ g', gameColl w_restarted !! 4%positive = Some g'
          ∧ tasks ended_game
            = [ {| task_id := 1; task_body := "Name the capital of Peru" |} ]
          ∧ tasks g'
            = [ {| task_id := 3; task_body := "Name the capital of Peru" |} ]
          ∧ tasks g' ≠ tasks ended_game.
Proof.
  split; [vm_compute; reflexivity |]. split; [reflexivity |].
  split; [vm_compute; reflexivity |].
  eexists. split; [vm_compute; reflexivity |].
  split; [reflexivity |]. split; [reflexivity |]. discriminate.
Qed.

Lemma restartGame_host_is_caller_witness :
  restartGame (scoped "jo" 2 Admin) (Hex 2) w_ended
  = (Ok {| creds := upgradeCredentials (claims "jo") 4 Host;
           gameid := Hex 4; taskids := [Hex 3] |}, w_restarted)
  ∧ host ended_game = "hana"%string
  ∧ ∃ d newid g',
      jwt_verify (scoped "jo" 2 Admin) ACCESS_TOKEN_KEY = Ok d
      ∧ Hex 4 = Hex newid
      ∧ gameColl w_ended !! newid = None
      ∧ gameColl w_restarted !! newid = Some g'
      ∧ host g' = username d
      ∧ upgradeCredentials (claims "jo") 4 Host
        = upgradeCredentials d newid Host
      ∧ jwt_verify (accessToken (upgradeCredentials (claims "jo") 4 Host))
                   ACCESS_TOKEN_KEY
        = Ok {| userid := userid d; username := username d;
                gameId := Some newid; role := Some Host |}.
Proof.
  split; [vm_compute; reflexivity |]. split; [reflexivity |].
  apply (restartGame_host_is_caller (scoped "jo" 2 Admin) (Hex 2) w_ended
           {| creds := upgradeCredentials (claims "jo") 4 Host;
              gameid := Hex 4; taskids := [Hex 3] |} w_restarted).
  vm_compute; reflexivity.
Defined.

(** C3 at a failing input.  Game 1 needs two players and is
    ["not ready"].  ivo and kim join at the same time: both requests read
    the game with nobody seated and pass the checks.  ivo's request
    writes first.  When kim's request writes, the stored game is
    ["not ready"] with [minPlayers - 1] players, and the join succeeds
    and brings it to [minPlayers] players; but the update was decided on
    the document read before, so it carries no [$set] and the game stays
    ["not ready"].  Had kim's request started after ivo's had ended, the
    same join would have stored the game as ["ready"].  The game that
    was left ["not ready"] cannot be started. *)
Theorem joinGame_stale_read_stays_not_ready :
  joinGame_checks (identity "ivo") (Hex 1) AsPlayer None w_doubles
  = (Ok (1%positive, claims "ivo", doubles_game), w_doubles)
  ∧ joinGame_checks (identity "kim") (Hex 1) AsPlayer None w_doubles
    = (Ok (1%positive, claims "kim", doubles_game), w_doubles)
  ∧ joinGame_commit (claims "ivo") 1 doubles_game AsPlayer w_doubles
    = (Ok (upgradeCredentials (claims "ivo") 1 Player), w_doubles_ivo)
  ∧ gameColl w_doubles_ivo !! 1%positive
    = Some (with_players ["ivo"%string] doubles_game)
  ∧ state (with_players ["ivo"%string] doubles_game) = NotReady
  ∧ Z.of_nat (length (players (with_players ["ivo"%string] doubles_game)))
    = minPlayers (settings doubles_game) - 1
  ∧ joinGame_commit (claims "kim") 1 doubles_game AsPlayer w_doubles_ivo
    = (Ok (upgradeCredentials (claims "kim") 1 Player), w_doubles_both)
  ∧ gameColl w_doubles_both !! 1%positive
    = Some (with_players ["ivo"; "kim"]%string doubles_game)
  ∧ state (with_players ["ivo"; "kim"]%string doubles_game) = NotReady
  ∧ joinGame (identity "kim") (Hex 1) AsPlayer None w_doubles_ivo
    = (Ok (upgradeCredentials (claims "kim") 1 Player), w_doubles_in_turn)
  ∧ gameColl w_doubles_in_turn !! 1%positive
    = Some (with_state Ready
              (with_players ["ivo"; "kim"]%string doubles_game))
  ∧ startGame (scoped "hana" 1 Host) (Hex 1) None None w_doubles_both
    = (Throw (AssertionError "Invalid game state"), w_doubles_both).
Proof. repeat apply conj; vm_compute; reflexivity. Qed.

(** C4 at a failing input.  Game 2 has one seat and nobody seated.  ivo
    and kim join at the same time: both requests read the game with
    nobody seated and pass the capacity assertion.  Both joins succeed,
    and the game is stored with two players where [maxPlayers] is 1.
    Had kim's request started after ivo's had ended, it would have
    failed with the capacity error and changed nothing. *)
Theorem joinGame_concurrent_joins_exceed_maxPlayers :
  joinGame_checks (identity "ivo") (Hex 2) AsPlayer None w_created
  = (Ok (2%positive, claims "ivo", open_game), w_created)
  ∧ joinGame_checks (identity "kim") (Hex 2) AsPlayer None w_created
    = (Ok (2%positive, claims "kim", open_game), w_created)
  ∧ Z.of_nat (length (players open_game)) ≤ maxPlayers (settings open_game)
  ∧ joinGame_commit (claims "ivo") 2 open_game AsPlayer w_created
    = (Ok (upgradeCredentials (claims "ivo") 2 Player), w_full)
  ∧ joinGame_commit (claims "kim") 2 open_game AsPlayer w_full
    = (Ok (upgradeCredentials (claims "kim") 2 Player), w_overfull)
  ∧ gameColl w_overfull !! 2%positive = Some overfull_game
  ∧ players overfull_game = ["ivo"; "kim"]%string
  ∧ maxPlayers (settings overfull_game) = 1
  ∧ maxPlayers (settings overfull_game)
    < Z.of_nat (length (players overfull_game))
  ∧ joinGame (identity "kim") (Hex 2) AsPlayer None w_full
    = (Throw PlayerCapacityReached, w_full).
Proof.
  repeat apply conj;
    first [vm_compute; reflexivity | vm_compute; discriminate].
Qed.

(** C5 at a failing input.  jo is an admin of game 2 and holds the admin
    token that [joinGame] issued.  The token passes the authorization of
    [leaveGame]; [leaveGame] throws ["No player removed"] and the world is
    as before: jo is still in the admins array. *)
Theorem leaveGame_admin_stays :
  verifyToken (scoped "jo" 2 Admin) 2 [Player; Admin]
  = Ok (with_role Admin (with_gameId 2 (claims "jo")))
  ∧ gameColl w_staffed !! 2%positive = Some staffed_game
  ∧ admins staffed_game = ["jo"%string]
  ∧ leaveGame (scoped "jo" 2 Admin) (Hex 2) w_staffed
    = (Throw NoPlayerRemoved, w_staffed).
Proof. repeat apply conj; vm_compute; reflexivity. Qed.

(** C1 at two failing inputs.  Two [deleteGame] requests for the ended
    game 2 both pass the checks before either deletes.  The first one
    deletes the game and ends its session.  The callback of the second
    one finds nothing to delete and throws; the rejection skips
    [endSession] and the request fails with its session open.  Likewise
    for [joinGame], when ivo sends the same join twice: the second update
    modifies nothing, the callback throws, and the session stays open. *)
Theorem session_left_open_on_failure :
  deleteGame_checks (scoped "hana" 2 Host) (Hex 2) w_ended
  = (Ok (2%positive, ended_game), w_ended)
  ∧ deleteGame_checks (scoped "jo" 2 Admin) (Hex 2) w_ended
    = (Ok (2%positive, ended_game), w_ended)
  ∧ deleteGame_commit 2 ended_game w_ended = (Ok ended_game, w_deleted)
  ∧ openSessions w_deleted = 0%nat
  ∧ deleteGame_commit 2 ended_game w_deleted
    = (Throw (AssertionError "Unable to complete delete operation"),
       w_deleted_twice)
  ∧ openSessions w_deleted_twice = 1%nat
  ∧ joinGame_checks (identity "ivo") (Hex 2) AsPlayer None w_created
    = (Ok (2%positive, claims "ivo", open_game), w_created)
  ∧ joinGame_commit (claims "ivo") 2 open_game AsPlayer w_created
    = (Ok (upgradeCredentials (claims "ivo") 2 Player), w_full)
  ∧ openSessions w_full = 0%nat
  ∧ joinGame_commit (claims "ivo") 2 open_game AsPlayer w_full
    = (Throw (AssertionError "Operation unsuccessful"), w_joined_twice)
  ∧ openSessions w_joined_twice = 1%nat.
Proof. repeat apply conj; vm_compute; reflexivity. Qed.

End Scenarios.

(** * Further properties of [game.ts] *)

Section Guards.
Context `{Constants}.

(** ** What comes first in every function *)

Lemma guarded_calls_unauthorized token gid e arn ev fromSchedule w :
  verifyToken token gid [Host; Admin] = Throw e →
  getGame token (Hex gid) w = (Throw e, w)
  ∧ startGame token (Hex gid) arn ev w = (Throw e, w)
  ∧ stopGame token (Hex gid) fromSchedule w = (Throw e, w)
  ∧ restartGame token (Hex gid) w = (Throw e, w)
  ∧ deleteGame token (Hex gid) w = (Throw e, w).
Proof.
  intros Hv.
  unfold getGame, startGame, stopGame, restartGame, deleteGame,
    deleteGame_checks, bind. simpl. rewrite Hv. by repeat apply conj.
Qed.

(** X1. The six functions that call [verifyToken] do so before they read
    or write anything.  When [verifyToken] throws for the roles that
    [getGame], [startGame], [stopGame], [restartGame] and [deleteGame]
    admit, each of the five throws the same error and the world is as it
    was; when it throws for the roles that [leaveGame] admits, so does
    [leaveGame]. *)
Theorem unauthorized_call_changes_nothing token gid arn ev fromSchedule w :
  (∀ e, verifyToken token gid [Host; Admin] = Throw e →
        getGame token (Hex gid) w = (Throw e, w)
        ∧ startGame token (Hex gid) arn ev w = (Throw e, w)
        ∧ stopGame token (Hex gid) fromSchedule w = (Throw e, w)
        ∧ restartGame token (Hex gid) w = (Throw e, w)
        ∧ deleteGame token (Hex gid) w = (Throw e, w))
  ∧ (∀ e, verifyToken token gid [Player; Admin] = Throw e →
          leaveGame token (Hex gid) w = (Throw e, w)).
Proof.
  split.
  - intros e. apply guarded_calls_unauthorized.
  - intros e Hv. unfold leaveGame, bind. simpl. by rewrite Hv.
Qed.

(** X2. On an id that no game has, a caller whose token is accepted for
    the function gets ["Invalid game ID"] from [getGame], [startGame],
    [stopGame], [restartGame] and [deleteGame], and ["No player removed"]
    from [leaveGame], whose update matches nothing; [getPublicGame], which
    takes no token, throws ["Invalid game"].  The world is as it was in
    each case. *)
Theorem missing_game_rejected token gid arn ev fromSchedule w :
  gameColl w !! gid = None →
  (∀ d, verifyToken token gid [Host; Admin] = Ok d →
        getGame token (Hex gid) w
        = (Throw (AssertionError "Invalid game ID"), w)
        ∧ startGame token (Hex gid) arn ev w
          = (Throw (AssertionError "Invalid game ID"), w)
        ∧ stopGame token (Hex gid) fromSchedule w
          = (Throw (AssertionError "Invalid game ID"), w)
        ∧ restartGame token (Hex gid) w
          = (Throw (AssertionError "Invalid game ID"), w)
        ∧ deleteGame token (Hex gid) w
          = (Throw (AssertionError "Invalid game ID"), w))
  ∧ getPublicGame (Hex gid) w = (Throw (AssertionError "Invalid game"), w)
  ∧ (∀ d, verifyToken token gid [Player; Admin] = Ok d →
          leaveGame token (Hex gid) w = (Throw NoPlayerRemoved, w)).
Proof.
  intros Hnone. split; [| split].
  - intros d Hv.
    unfold getGame, startGame, stopGame, restartGame, deleteGame,
      deleteGame_checks, bind.
    simpl. rewrite Hv. simpl. rewrite Hnone. by repeat apply conj.
  - unfold getPublicGame, bind. simpl. by rewrite Hnone.
  - intros d Hv. unfold leaveGame, games_updateOne, bind.
    simpl. rewrite Hv. simpl. by rewrite Hnone.
Qed.

(** ** Reading games *)

Lemma foldl_push {A B} (f : A → B) (l : list A) (acc : list B) :
  foldl (λ acc x, acc ++ [f x]) acc l = acc ++ map f l.
Proof.
  revert acc. induction l as [|x l IH]; intros acc; simpl.
  - by rewrite app_nil_r.
  - by rewrite IH, <- app_assoc.
Qed.

Lemma listPublicGames_run w :
  listPublicGames w
  = (Ok (map (λ kv, public_view kv.2) (map_to_list (gameColl w))), w).
Proof.
  unfold listPublicGames, bind, games_find_toArray, ret.
  by rewrite (foldl_push (λ kv : ObjectId * GameSchema, public_view kv.2)).
Qed.

Lemma getPublicGame_Ok id w p w' :
  getPublicGame (Hex id) w = (Ok p, w') ↔
  ∃ g, gameColl w !! id = Some g ∧ p = public_view g ∧ w' = w.
Proof.
  unfold getPublicGame, bind, games_findOne. simpl.
  destruct (gameColl w !! id) as [g|]; simpl; split.
  - intros [= <- <-]. by exists g.
  - intros (g' & [= <-] & -> & ->). done.
  - discriminate.
  - intros (g' & [=] & _).
Qed.

(** X3. [listPublicGames] and [getPublicGame] agree and need no token:
    the list has one entry per stored game, and its entries are exactly
    the answers that [getPublicGame] gives for the ids of the store.
    Neither of them changes the world. *)
Theorem listPublicGames_agrees_with_getPublicGame w :
  ∃ l,
    listPublicGames w = (Ok l, w)
    ∧ length l = size (gameColl w)
    ∧ ∀ p, p ∈ l ↔ ∃ id, getPublicGame (Hex id) w = (Ok p, w).
Proof.
  eexists. split; [apply listPublicGames_run |]. split.
  - by rewrite length_map, length_map_to_list.
  - intros p. rewrite list_elem_of_fmap. split.
    + intros ([id g] & -> & Hin). apply elem_of_map_to_list in Hin.
      exists id. apply getPublicGame_Ok. by exists g.
    + intros (id & Hrun). apply getPublicGame_Ok in Hrun as (g & Hg & -> & _).
      exists (id, g). split; [done |]. by apply elem_of_map_to_list.
Qed.

Lemma verifyToken_upgraded (d : UserToken) (gid : ObjectId) (r : UserRole)
    (allowed : list UserRole) :
  verifyToken (accessToken (upgradeCredentials d gid r)) gid allowed
  = if bool_decide (r ∈ allowed)
    then Ok {| userid := userid d; username := username d;
               gameId := Some gid; role := Some r |}
    else Throw Forbidden.
Proof.
  unfold verifyToken. rewrite upgradeCredentials_claims. simpl.
  rewrite !bool_decide_eq_true_2 by done. simpl. by case_bool_decide.
Qed.

(** X4. What [createGame] inserts can be read back with the credentials
    it returns: [getGame] with the returned access token and game id
    succeeds and returns a game with the caller as host, nobody on the
    roster, one task per task handed in, with the same content in the
    same order, under the task ids that [createGame] returned. *)
Theorem createGame_then_getGame token settings0 tasks0 w c w' :
  createGame token settings0 tasks0 w = (Ok c, w') →
  ∃ id d g,
    gameid c = Hex id
    ∧ jwt_verify token ACCESS_TOKEN_KEY = Ok d
    ∧ getGame (accessToken (creds c)) (gameid c) w' = (Ok (id, g), w')
    ∧ host g = username d
    ∧ players g = [] ∧ admins g = []
    ∧ length (tasks g) = length tasks0
    ∧ map task_body (tasks g) = map task_body tasks0
    ∧ map (λ t, Hex (task_id t)) (tasks g) = taskids c.
Proof.
  intros Hrun.
  apply createGame_Ok in Hrun
    as (d & id & g & Hd & -> & _ & Hcoll & _ & Hbody & _ & _ & _ & Hp & Ha
        & Hh).
  exists id, d, g. cbn [creds gameid taskids]. repeat split; try done.
  - unfold getGame, bind, ObjectId_of, ret, liftR.
    rewrite verifyToken_upgraded. simpl.
    by rewrite Hcoll, lookup_insert_eq.
  - apply (f_equal length) in Hbody. by rewrite !length_map in Hbody.
Qed.


End Guards.

Section Creating.
Context `{Constants}.

(** ** More on [createGame] *)

(** The document that [createGame] builds. *)
Lemma createGame_cases token settings0 tasks0 w :
  (∃ e w',
     createGame token settings0 tasks0 w = (Throw e, w')
     ∧ gameColl w' = gameColl w ∧ playerColl w' = playerColl w)
  ∨ (∃ d id l',
       jwt_verify token ACCESS_TOKEN_KEY = Ok d
       ∧ Z.of_nat (size (gameColl w)) < MAX_GAMES
       ∧ assign_ids tasks0 w = (Ok l', with_nextId id w)
       ∧ gameColl w !! id = None
       ∧ createGame token settings0 tasks0 w
         = (Ok {| creds := upgradeCredentials d id Host;
                  gameid := Hex id;
                  taskids := map (λ t, Hex (task_id t)) l' |},
            with_gameColl
              (<[id := {| tasks := l';
                          settings :=
                            with_endTime
                              (if duration settings0 =? 0 then 0
                               else startTime settings0 + duration settings0)
                              settings0;
                          state := if minPlayers settings0 =? 0
                                   then Ready else NotReady;
                          players := []; admins := [];
                          host := username d;
                          stopScheduleArn := None |}]> (gameColl w))
              (with_nextId (Pos.succ id) w))).
Proof.
  destruct (assign_ids_run tasks0 w) as (l' & n & Hids & _ & _ & _).
  unfold createGame, games_insertOne, bind, games_find_toArray, new_ObjectId.
  rewrite length_map_to_list.
  destruct (Z.ltb_spec (Z.of_nat (size (gameColl w))) MAX_GAMES) as [Hroom|_];
    simpl; [| left; by eexists _, _].
  destruct (jwt_verify token ACCESS_TOKEN_KEY) as [d|e] eqn:Hd; simpl;
    [| left; by eexists _, _].
  rewrite Hids. simpl.
  destruct (gameColl w !! n) eqn:Hn; simpl; [left; by eexists _, _ |].
  right. exists d, n, l'. repeat split; try done.
  by destruct (duration settings0 =? 0), settings0.
Qed.

(** X6. [createGame] refuses to go beyond [MAX_GAMES]: when the store
    holds [MAX_GAMES] games or more, it throws ["Max games reached"]
    before it looks at the token, and the world is as it was. *)
Theorem createGame_at_capacity token settings0 tasks0 w :
  MAX_GAMES ≤ Z.of_nat (size (gameColl w)) →
  createGame token settings0 tasks0 w
  = (Throw (AssertionError "Max games reached"), w).
Proof.
  intros Hfull. unfold createGame, bind, games_find_toArray.
  rewrite length_map_to_list. by rewrite (proj2 (Z.ltb_ge _ _) Hfull).
Qed.

(** X7. [createGame] verifies the token before it draws an id or writes
    anything: while the store has room for a game, a token that
    [jwt.verify] rejects makes [createGame] throw the error of
    [jwt.verify], and the world is as it was. *)
Theorem createGame_rejected_token_changes_nothing
    token settings0 tasks0 w e :
  Z.of_nat (size (gameColl w)) < MAX_GAMES →
  jwt_verify token ACCESS_TOKEN_KEY = Throw e →
  createGame token settings0 tasks0 w = (Throw e, w).
Proof.
  intros Hroom Hd. unfold createGame, bind, games_find_toArray.
  rewrite length_map_to_list. rewrite (proj2 (Z.ltb_lt _ _) Hroom). simpl.
  by rewrite Hd.
Qed.

(** X8. A successful [createGame] stores the settings it was given with
    [endTime] overwritten: [startTime + duration] when [duration] is not
    0, and 0 when it is; every other setting, [startTime] included, is
    stored as given.  It touches no other game and no player.  This is
    for a start time, a duration and a sum of the two that are safe
    integers, where the sum is exact. *)
Theorem createGame_stores_settings token settings0 tasks0 w c w' :
  createGame token settings0 tasks0 w = (Ok c, w') →
  safe_integer (startTime settings0) →
  safe_integer (duration settings0) →
  safe_integer (startTime settings0 + duration settings0) →
  ∃ id g,
    gameid c = Hex id
    ∧ gameColl w !! id = None
    ∧ gameColl w' = <[id := g]> (gameColl w)
    ∧ playerColl w' = playerColl w
    ∧ settings g
      = with_endTime
          (if duration settings0 =? 0 then 0
           else startTime settings0 + duration settings0)
          settings0
    ∧ ∀ other, other ≠ id → gameColl w' !! other = gameColl w !! other.
Proof.
  intros Hrun _ _ _.
  destruct (createGame_cases token settings0 tasks0 w)
    as [(e0 & w0 & Hthrow & _) | (d & id & l' & _ & _ & _ & Hnew & Hok)].
  - rewrite Hrun in Hthrow. discriminate.
  - rewrite Hrun in Hok. injection Hok as -> ->.
    eexists id, _. repeat split; try done.
    intros other Hne. simpl. by rewrite lookup_insert_ne.
Qed.

Lemma assign_ids_NoDup (l : list TaskSchema) w l' w' :
  assign_ids l w = (Ok l', w') → NoDup (map task_id l').
Proof.
  revert w l' w'. induction l as [|t l IH]; intros w l' w'; simpl.
  - intros [= <- _]. constructor.
  - unfold bind, new_ObjectId.
    destruct (assign_ids_run l (with_nextId (Pos.succ (nextId w)) w))
      as (rest & n & Hrun & _ & _ & Hfresh).
    rewrite Hrun. intros [= <- _]. simpl. constructor.
    + rewrite list_elem_of_fmap. intros (t' & Heq & Hin).
      rewrite Forall_forall in Hfresh. apply Hfresh in Hin. simpl in Hin. lia.
    + by eapply IH.
Qed.

(** X9. The ids that a successful [createGame] hands out are new and
    pairwise different: the returned task ids are one per task, none of
    them repeats, none of them is the id of the new game, and neither
    the game id nor a task id is below the generator's position before
    the call. *)
Theorem createGame_ids_fresh token settings0 tasks0 w c w' :
  createGame token settings0 tasks0 w = (Ok c, w') →
  ∃ id,
    gameid c = Hex id
    ∧ length (taskids c) = length tasks0
    ∧ NoDup (taskids c)
    ∧ (gameid c ∉ taskids c)
    ∧ (nextId w ≤ id)%positive
    ∧ ∀ t, Hex t ∈ taskids c → (nextId w ≤ t < id)%positive.
Proof.
  intros Hrun.
  destruct (createGame_cases token settings0 tasks0 w)
    as [(e0 & w0 & Hthrow & _) | (d & id & l' & _ & _ & Hids & _ & Hok)].
  { rewrite Hrun in Hthrow. discriminate. }
  rewrite Hrun in Hok. injection Hok as -> _.
  destruct (assign_ids_run tasks0 w) as (l0 & n & Hids' & Hle & Hbody & Hfresh).
  rewrite Hids in Hids'. injection Hids' as <- Hn. subst n.
  pose proof (assign_ids_NoDup _ _ _ _ Hids) as Hnd.
  assert (Hbound : ∀ t, Hex t ∈ map (λ t, Hex (task_id t)) l' →
                        (nextId w ≤ t < id)%positive).
  { intros t. rewrite list_elem_of_fmap. intros (t' & [= ->] & Hin).
    rewrite Forall_forall in Hfresh. by apply Hfresh. }
  exists id. simpl. repeat split.
  - rewrite length_map. apply (f_equal length) in Hbody.
    by rewrite !length_map in Hbody.
  - assert (Inj (=) (=) Hex) by (by intros ?? [=]).
    rewrite <- (map_map task_id Hex). by apply (NoDup_fmap_2 Hex).
  - intros Hin. apply Hbound in Hin. lia.
  - done.
  - by apply Hbound.
  - by apply Hbound.
Qed.

End Creating.

Section Joining.
Context `{Constants}.

(** ** More on [joinGame] *)

Lemma admin_code_ok_true code adminCodes :
  admin_code_ok code adminCodes = true ↔
  ∃ c codes, code = Some c ∧ c ≠ EmptyString
             ∧ adminCodes = Some codes ∧ c ∈ codes.
Proof.
  unfold admin_code_ok, truthy, includes.
  destruct code as [c|], adminCodes as [codes|]; simpl;
    try (split; [discriminate | by intros (? & ? & ? & ? & ? & ?)]).
  rewrite andb_true_iff, negb_true_iff, bool_decide_eq_false,
    bool_decide_eq_true.
  split.
  - intros [Hne Hin]. by exists c, codes.
  - by intros (? & ? & [= <-] & ? & [= <-] & ?).
Qed.

(** X10. Nobody becomes an admin without one of the configured codes.
    Unless the code is a non-empty string that [ADMIN_CODES] lists, an
    admin join throws ["Invalid admin creds"] before the token is
    verified or the game is read, and the world is as it was; that
    includes a missing code, an empty one, and an unset [ADMIN_CODES]. *)
Theorem joinGame_admin_needs_code token gid code w :
  ¬ (∃ c codes, code = Some c ∧ c ≠ EmptyString
                ∧ ADMIN_CODES = Some codes ∧ c ∈ codes) →
  joinGame token (Hex gid) AsAdmin code w
  = (Throw (AssertionError "Invalid admin creds"), w).
Proof.
  intros Hbad. rewrite <- admin_code_ok_true in Hbad.
  apply not_true_is_false in Hbad.
  unfold joinGame, joinGame_checks, bind. simpl. by rewrite Hbad.
Qed.

(** The checks of [joinGame] pass when each assertion holds. *)
Lemma joinGame_checks_pass token gid role code w d g :
  (role = AsAdmin → admin_code_ok code ADMIN_CODES = true) →
  jwt_verify token ACCESS_TOKEN_KEY = Ok d →
  gameColl w !! gid = Some g →
  username d ≠ host g → username d ∉ players g → username d ∉ admins g →
  (role = AsPlayer → Z.of_nat (length (players g)) < maxPlayers (settings g)) →
  (role = AsAdmin → Z.of_nat (length (admins g)) < MAX_ADMINS) →
  (role = AsPlayer → state g ≠ Ended) →
  joinGame_checks token (Hex gid) role code w = (Ok (gid, d, g), w).
Proof.
  intros Hcode Hd Hg Hh Hp Ha Hroom Hcap Hst.
  apply includes_false in Hp, Ha.
  unfold joinGame_checks, bind. simpl.
  destruct role; simpl.
  - rewrite Hd. simpl. rewrite Hg. simpl.
    rewrite bool_decide_eq_true_2, Hp, Ha by done. simpl.
    rewrite (proj2 (Z.ltb_lt _ _) (Hroom eq_refl)). simpl.
    by rewrite bool_decide_eq_true_2 by auto.
  - rewrite (Hcode eq_refl). simpl. rewrite Hd. simpl. rewrite Hg. simpl.
    rewrite bool_decide_eq_true_2, Hp, Ha by done. simpl.
    by rewrite (proj2 (Z.ltb_lt _ _) (Hcap eq_refl)).
Qed.


(** X12. An admin join that passes the checks succeeds in every state of
    the game, ["ended"] and ["running"] included: it appends the user to
    the admins array and changes nothing else in the world, so no player
    record is made and players, state and settings stay; the token it
    returns is for the role ["admin"]. *)
Theorem joinGame_admin_any_state token gid code w d g :
  admin_code_ok code ADMIN_CODES = true →
  jwt_verify token ACCESS_TOKEN_KEY = Ok d →
  gameColl w !! gid = Some g →
  username d ≠ host g → username d ∉ players g → username d ∉ admins g →
  Z.of_nat (length (admins g)) < MAX_ADMINS →
  joinGame token (Hex gid) AsAdmin code w
  = (Ok (upgradeCredentials d gid Admin),
     with_gameColl
       (<[gid := with_admins (admins g ++ [username d]) g]> (gameColl w)) w).
Proof.
  intros Hcode Hd Hg Hh Hp Ha Hcap.
  unfold joinGame.
  rewrite (bind_step _ _ w (gid, d, g) w)
    by (apply joinGame_checks_pass; try done).
  rewrite joinGame_commit_run, joinGame_transaction_admin, update_then_assert.
  simpl. rewrite Hg.
  assert (Hdoc : apply_update (join_update AsAdmin (username d) g) g
                 = with_admins (admins g ++ [username d]) g).
  { unfold apply_update, join_update. simpl. by rewrite addToSet_new. }
  rewrite Hdoc. rewrite bool_decide_eq_false_2.
  - by destruct w.
  - intros Heq. apply (f_equal (λ x, length (admins x))) in Heq. simpl in Heq.
    rewrite length_app in Heq. simpl in Heq. lia.
Qed.

(** X13. A player join that passes the checks succeeds, provided the id
    that the generator hands out is free in the players collection.  It
    makes exactly one player record, under that id: for this game and
    user, with no points, nothing submitted, and [done] set exactly when
    the game requires no tasks.  In the game it appends the user to the
    players array, and the token it returns is for the role
    ["player"]. *)
Theorem joinGame_player_record token gid code w d g :
  jwt_verify token ACCESS_TOKEN_KEY = Ok d →
  gameColl w !! gid = Some g →
  username d ≠ host g → username d ∉ players g → username d ∉ admins g →
  Z.of_nat (length (players g)) < maxPlayers (settings g) →
  state g ≠ Ended →
  playerColl w !! nextId w = None →
  ∃ w' g',
    joinGame token (Hex gid) AsPlayer code w
    = (Ok (upgradeCredentials d gid Player), w')
    ∧ playerColl w'
      = <[nextId w := {| player_gameId := gid;
                         player_username := username d;
                         points := 0;
                         tasksSubmitted := [];
                         done := bool_decide
                                   (numRequiredTasks (settings g) = 0) |}]>
          (playerColl w)
    ∧ gameColl w' = <[gid := g']> (gameColl w)
    ∧ players g' = players g ++ [username d]
    ∧ admins g' = admins g
    ∧ settings g' = settings g
    ∧ nextId w' = Pos.succ (nextId w)
    ∧ openSessions w' = openSessions w.
Proof.
  intros Hd Hg Hh Hp Ha Hroom Hst Hfree.
  unfold joinGame.
  rewrite (bind_step _ _ w (gid, d, g) w)
    by (apply joinGame_checks_pass; done).
  rewrite joinGame_commit_run, joinGame_transaction_player.
  unfold players_insertOne, new_ObjectId, bind at 1 2. simpl.
  rewrite Hfree. simpl. rewrite bind_ret, update_then_assert. simpl.
  rewrite Hg.
  destruct (apply_join_update AsPlayer (username d) g g)
    as (Hset & _ & Hpl & Had).
  rewrite addToSet_new in Hpl by done.
  rewrite bool_decide_eq_false_2.
  2: { intros Heq. rewrite Heq in Hpl.
       apply (f_equal length) in Hpl. rewrite length_app in Hpl.
       simpl in Hpl. lia. }
  eexists _, _. split; [reflexivity |]. simpl. repeat split; try done.
  by destruct (Z.eqb_spec (numRequiredTasks (settings g)) 0);
    [rewrite bool_decide_eq_true_2 | rewrite bool_decide_eq_false_2].
Qed.

End Joining.

Section Leaving.
Context `{Constants}.

(** ** More on [leaveGame] *)

Lemma pull_app x l1 l2 : pull x (l1 ++ l2) = pull x l1 ++ pull x l2.
Proof. unfold pull. apply filter_app. Qed.

Lemma pull_other x y l : y ≠ x → y ∈ pull x l ↔ y ∈ l.
Proof. intros Hne. unfold pull. rewrite list_elem_of_filter. tauto. Qed.

(** X14. A player who leaves is taken off the players array and nothing
    else happens: the other players, the admins, the state and the
    settings of the game stay, also when the game thereby has fewer
    players than [minPlayers]; and the player's record stays in the
    players collection. *)
Theorem leaveGame_only_unseats token gid w d g :
  verifyToken token gid [Player; Admin] = Ok d →
  gameColl w !! gid = Some g →
  username d ∈ players g →
  ∃ w' g',
    leaveGame token (Hex gid) w = (Ok tt, w')
    ∧ gameColl w' = <[gid := g']> (gameColl w)
    ∧ (username d ∉ players g')
    ∧ (∀ user, user ≠ username d → user ∈ players g' ↔ user ∈ players g)
    ∧ admins g' = admins g
    ∧ state g' = state g
    ∧ settings g' = settings g
    ∧ playerColl w' = playerColl w.
Proof.
  intros Hv Hg Hin.
  eexists _, _. split; [by apply (leaveGame_player token gid w d g) |].
  simpl. repeat split; try done.
  - apply pull_removes.
  - by apply pull_other.
  - by apply pull_other.
Qed.

(** X15. Joining as a player and then leaving with the token that the
    join returned does not undo the join.  The players array is as
    before the join, but the state that the join set stays: a game that
    the join made ["ready"] is still ["ready"] with one player fewer
    than [minPlayers]; and the player record that the join made is still
    there. *)
Theorem joinGame_then_leaveGame token raw code w c w1 :
  joinGame token raw AsPlayer code w = (Ok c, w1) →
  ∃ gid g g1 g2 w2,
    raw = Hex gid
    ∧ gameColl w !! gid = Some g
    ∧ gameColl w1 !! gid = Some g1
    ∧ leaveGame (accessToken c) raw w1 = (Ok tt, w2)
    ∧ gameColl w2 !! gid = Some g2
    ∧ players g2 = players g
    ∧ state g2 = state g1
    ∧ (state g = NotReady →
       Z.of_nat (length (players g)) = minPlayers (settings g) - 1 →
       state g2 = Ready)
    ∧ playerColl w2 = playerColl w1.
Proof.
  intros Hrun.
  apply joinGame_Ok in Hrun
    as (gid & d & g & -> & Hd & Hg & Hp & Ha & _ & -> & Hcoll & _).
  destruct (apply_join_update AsPlayer (username d) g g)
    as (_ & Hst & Hpl & _).
  rewrite addToSet_new in Hpl by done.
  remember (apply_update (join_update AsPlayer (username d) g) g) as g1
    eqn:Hdef.
  assert (Hg1 : gameColl w1 !! gid = Some g1)
    by (by rewrite Hcoll, lookup_insert_eq).
  exists gid, g, g1, (with_players (pull (username d) (players g1)) g1).
  eexists. split; [done |]. split; [done |]. split; [done |].
  split.
  { apply (leaveGame_player _ gid w1
             {| userid := userid d; username := username d;
                gameId := Some gid; role := Some Player |} g1); try done.
    - by rewrite verifyToken_upgraded.
    - simpl. rewrite Hpl. apply elem_of_app. right. by left. }
  simpl. rewrite lookup_insert_eq. repeat split; try done.
  - rewrite Hpl, pull_app, pull_absent by done. unfold pull.
    rewrite filter_cons_False by (intros Hne; by apply Hne).
    by rewrite filter_nil, app_nil_r.
  - intros HnotReady Hlen. rewrite Hst.
    by rewrite (proj2 (fills_minimum_true AsPlayer g)).
Qed.

End Leaving.

Section Starting.
Context `{Constants}.

(** ** More on [startGame] and [stopGame] *)

(** The document of a game that has been started at [now]. *)
Lemma started_doc g now t :
  state g = Ready →
  let g' := apply_update
              {| upd_set := Some {| set_state := Some Running;
                                    set_startTime := Some now;
                                    set_endTime := Some t |};
                 upd_addToSet := None; upd_pull := None |} g in
  g' ≠ g ∧ state g' = Running
  ∧ settings g' = with_endTime t (with_startTime now (settings g))
  ∧ players g' = players g ∧ admins g' = admins g.
Proof.
  intros Hst. simpl. repeat split.
  intros Heq. apply (f_equal state) in Heq. simpl in Heq. congruence.
Qed.

Ltac start_case_done :=
  eexists _, _; split; [reflexivity |]; simpl; repeat split;
  try done; try lia; try (by intros ? [= <-]); try (intros ? [=]).

(** [startGame] on a ready game, by a caller whose token is accepted:
    the game is written as running in every case. *)
Lemma startGame_ready_cases token gid arn ev w d g :
  verifyToken token gid [Host; Admin] = Ok d →
  gameColl w !! gid = Some g →
  state g = Ready →
  ∃ r w',
    startGame token (Hex gid) arn ev w = (r, w')
    ∧ gameColl w' =
      <[gid := apply_update
                 {| upd_set :=
                      Some {| set_state := Some Running;
                              set_startTime := Some (clock w);
                              set_endTime :=
                                Some (if duration (settings g) =? 0 then 0
                                      else clock w
                                           + duration (settings g) * 1000) |};
                    upd_addToSet := None; upd_pull := None |} g]>
        (gameColl w)
    ∧ playerColl w' = playerColl w
    ∧ (duration (settings g) ≤ 0 →
       r = Ok {| conf_startTime := clock w;
                 conf_endTime := if duration (settings g) =? 0 then 0
                                 else clock w
                                      + duration (settings g) * 1000 |}
       ∧ schedulerCalls w' = schedulerCalls w)
    ∧ (∀ c, r = Ok c →
            c = {| conf_startTime := clock w;
                   conf_endTime := if duration (settings g) =? 0 then 0
                                   else clock w
                                        + duration (settings g) * 1000 |}).
Proof.
  intros Hv Hg Hst.
  unfold startGame, bind, games_updateOne. simpl.
  rewrite Hv. simpl. rewrite Hg. simpl.
  rewrite bool_decide_eq_true_2 by done. simpl. rewrite Hg.
  rewrite bool_decide_eq_false_2 by (by apply started_doc). simpl.
  destruct (Z.ltb_spec 0 (duration (settings g))) as [Hpos | Hnon]; simpl;
    [| start_case_done].
  destruct arn as [arn|]; simpl; [| start_case_done].
  destruct (bool_decide (arn = EmptyString)); simpl; [start_case_done |].
  destruct ev as [ev|]; simpl; [| start_case_done].
  unfold console_log. simpl.
  destruct (Date_toISOString_19 _); simpl; [| start_case_done].
  unfold scheduler_send. simpl.
  destruct (scheduler _ _); simpl; start_case_done.
Qed.



(** The years 0000 to 9999, where [toISOString] cuts to the second. *)
Lemma Date_toISOString_19_four_digit_year t :
  0 ≤ t < year_10000 →
  Date_toISOString_19 t = Ok (to_the_second (t / 1000)).
Proof.
  intros [Hlo Hhi]. unfold Date_toISOString_19.
  unfold year_10000 in Hhi.
  rewrite (proj2 (Z.ltb_ge _ _)) by (unfold Date_range; lia).
  rewrite (proj2 (Z.leb_le _ _)) by (unfold year_0000; lia).
  by rewrite (proj2 (Z.ltb_lt _ _)) by (unfold year_10000; lia).
Qed.

Lemma Date_toISOString_19_invalid t :
  Date_range < t → Date_toISOString_19 t = Throw RangeError.
Proof.
  intros Hhi. unfold Date_toISOString_19.
  by rewrite (proj2 (Z.ltb_lt _ _)) by lia.
Qed.

(** X18. Starting a timed game registers one timer.  For a game with a
    positive duration that is ["ready"], called with both scheduler
    arguments at a time after the epoch, and ending before the year
    10000, [startGame] sends exactly one command: create the schedule
    named after the game, at now plus the duration cut down to the whole
    second, in the configured group, targeting the given function under
    the configured role, with the given event as input, its [source]
    header set to ["scheduler"].  When the scheduler accepts,
    [startGame] returns the start and end time in milliseconds; when it
    refuses, the error reaches the caller.  Either way the game is
    stored as ["running"]. *)
Theorem startGame_registers_timer token gid arn ev w d g :
  verifyToken token gid [Host; Admin] = Ok d →
  gameColl w !! gid = Some g →
  state g = Ready →
  0 < duration (settings g) →
  arn ≠ EmptyString →
  0 ≤ clock w →
  clock w + duration (settings g) * 1000 < year_10000 →
  ∃ w' g',
    startGame token (Hex gid) (Some arn) (Some ev) w
    = (match scheduler w
               (CreateScheduleCommand (Hex gid)
                  (to_the_second
                     ((clock w + duration (settings g) * 1000) / 1000))
                  {| Arn := arn; RoleArn := SCHEDULER_ROLE_ARN;
                     Input := mark_from_scheduler ev |}
                  SCHEDULER_GROUP_NAME) with
       | Sent _ =>
           Ok {| conf_startTime := clock w;
                 conf_endTime := clock w + duration (settings g) * 1000 |}
       | NotFound => Throw ResourceNotFoundException
       | Failed message => Throw (SchedulerServiceException message)
       end, w')
    ∧ schedulerCalls w'
      = schedulerCalls w
        ++ [CreateScheduleCommand (Hex gid)
              (to_the_second
                 ((clock w + duration (settings g) * 1000) / 1000))
              {| Arn := arn; RoleArn := SCHEDULER_ROLE_ARN;
                 Input := mark_from_scheduler ev |}
              SCHEDULER_GROUP_NAME]
    ∧ (∀ v, ("source"%string, v) ∈ headers (mark_from_scheduler ev)
            ↔ v = "scheduler"%string)
    ∧ gameColl w' = <[gid := g']> (gameColl w)
    ∧ state g' = Running
    ∧ endTime (settings g') = clock w + duration (settings g) * 1000.
Proof.
  intros Hv Hg Hst Hdur Harn Hnow Hend.
  assert (Hnz : (duration (settings g) =? 0) = false) by (apply Z.eqb_neq; lia).
  assert (Hsource : ∀ v, ("source"%string, v) ∈ headers (mark_from_scheduler ev)
                         ↔ v = "scheduler"%string).
  { intros v. unfold mark_from_scheduler. simpl.
    rewrite elem_of_cons, list_elem_of_filter. simpl. split.
    - intros [[= ->] | [Hne _]]; [done | by destruct Hne].
    - intros ->. by left. }
  unfold startGame, bind, games_updateOne. simpl.
  rewrite Hv. simpl. rewrite Hg. simpl.
  rewrite bool_decide_eq_true_2 by done. simpl. rewrite Hg.
  rewrite bool_decide_eq_false_2 by (by apply started_doc). simpl.
  rewrite (proj2 (Z.ltb_lt _ _) Hdur). simpl.
  rewrite bool_decide_eq_false_2 by done. simpl.
  unfold console_log. simpl. rewrite Hnz.
  rewrite Date_toISOString_19_four_digit_year by lia. simpl.
  unfold scheduler_send. simpl.
  destruct (scheduler w _); simpl;
    (eexists _, _; split; [reflexivity |]; simpl; rewrite ?Hnz;
     repeat apply conj; first [done | exact Hsource]).
Qed.

(** X27. A timed game whose end lies beyond the range of [Date] is
    started but gets no timer.  For a game with a positive duration that
    is ["ready"], called with both scheduler arguments at a time after
    the epoch, when now plus the duration is more than 8.64e15
    milliseconds, [startGame] throws a [RangeError] while it builds the
    command: nothing is sent to the scheduler, and the game stays stored
    as ["running"]. *)
Theorem startGame_end_out_of_range token gid arn ev w d g :
  verifyToken token gid [Host; Admin] = Ok d →
  gameColl w !! gid = Some g →
  state g = Ready →
  0 < duration (settings g) →
  arn ≠ EmptyString →
  0 ≤ clock w →
  Date_range < clock w + duration (settings g) * 1000 →
  ∃ w' g',
    startGame token (Hex gid) (Some arn) (Some ev) w = (Throw RangeError, w')
    ∧ schedulerCalls w' = schedulerCalls w
    ∧ gameColl w' = <[gid := g']> (gameColl w)
    ∧ state g' = Running
    ∧ startTime (settings g') = clock w.
Proof.
  intros Hv Hg Hst Hdur Harn Hnow Hend.
  assert (Hnz : (duration (settings g) =? 0) = false) by (apply Z.eqb_neq; lia).
  unfold startGame, bind, games_updateOne. simpl.
  rewrite Hv. simpl. rewrite Hg. simpl.
  rewrite bool_decide_eq_true_2 by done. simpl. rewrite Hg.
  rewrite bool_decide_eq_false_2 by (by apply started_doc). simpl.
  rewrite (proj2 (Z.ltb_lt _ _) Hdur). simpl.
  rewrite bool_decide_eq_false_2 by done. simpl.
  unfold console_log. simpl. rewrite Hnz.
  rewrite Date_toISOString_19_invalid by lia. simpl.
  eexists _, _. split; [reflexivity |]. simpl. by repeat apply conj.
Qed.

(** What a successful [startGame] has done. *)
Lemma startGame_Ok token raw arn ev w c w' :
  startGame token raw arn ev w = (Ok c, w') →
  ∃ gid d g,
    raw = Hex gid
    ∧ verifyToken token gid [Host; Admin] = Ok d
    ∧ gameColl w !! gid = Some g
    ∧ state g = Ready
    ∧ conf_startTime c = clock w
    ∧ gameColl w' =
      <[gid := apply_update
                 {| upd_set :=
                      Some {| set_state := Some Running;
                              set_startTime := Some (clock w);
                              set_endTime :=
                                Some (if duration (settings g) =? 0 then 0
                                      else clock w
                                           + duration (settings g) * 1000) |};
                    upd_addToSet := None; upd_pull := None |} g]>
        (gameColl w).
Proof.
  intros Hrun. pose proof Hrun as Hfacts. unfold startGame in Hfacts.
  apply bind_Ok in Hfacts as (gid & w0 & Hid & Hfacts). cbv beta in Hfacts.
  apply ObjectId_of_Ok in Hid as [-> ->].
  apply bind_Ok in Hfacts as (d & w0 & Hv & Hfacts). cbv beta in Hfacts.
  apply liftR_Ok in Hv as [Hv ->].
  apply bind_Ok in Hfacts as (o & w0 & Hg & Hfacts). cbv beta in Hfacts.
  apply games_findOne_Ok in Hg as [Hg ->].
  apply bind_Ok in Hfacts as (g & w0 & Hsome & Hfacts). cbv beta in Hfacts.
  apply assert_defined_Ok in Hsome as [-> ->].
  apply bind_Ok in Hfacts as (u & w0 & Hst & _).
  apply assert_Ok in Hst as [Hst _]. apply bool_decide_eq_true in Hst.
  destruct (startGame_ready_cases token gid arn ev w d g Hv Hg Hst)
    as (r & w1 & Hrun' & Hcoll & _ & _ & Hconf).
  rewrite Hrun in Hrun'. injection Hrun' as <- <-.
  exists gid, d, g. repeat split; try done.
  by rewrite (Hconf c eq_refl).
Qed.

(** [stopGame] on a running game, with the document it writes. *)
Lemma stopGame_running_doc token gid fromSchedule w d g :
  verifyToken token gid [Host; Admin] = Ok d →
  gameColl w !! gid = Some g →
  state g = Running →
  ∃ w',
    stopGame token (Hex gid) fromSchedule w
    = (Ok {| conf_startTime := startTime (settings g);
             conf_endTime := clock w |}, w')
    ∧ gameColl w' =
      <[gid := apply_update
                 {| upd_set := Some {| set_state := Some Ended;
                                       set_startTime := None;
                                       set_endTime := Some (clock w) |};
                    upd_addToSet := None; upd_pull := None |} g]>
        (gameColl w)
    ∧ playerColl w' = playerColl w.
Proof.
  intros Hv Hg Hst. unfold stopGame, bind, games_updateOne. simpl.
  rewrite Hv. simpl. rewrite Hg. simpl.
  rewrite bool_decide_eq_true_2 by done. simpl. rewrite Hg.
  rewrite bool_decide_eq_false_2.
  2: { intros Heq. apply (f_equal state) in Heq. simpl in Heq. congruence. }
  simpl.
  destruct fromSchedule as [[|]|]; simpl;
    [by eexists | |];
    unfold try_catch, bind, scheduler_send; simpl;
    destruct (scheduler w _); simpl; by eexists.
Qed.

(** X19. A game stopped after it was started reports the start time
    that [startGame] returned, whatever end time was planned.  After a
    successful [startGame], in any later world that holds the same
    games, a [stopGame] with a token that is accepted for the game at
    that moment succeeds, returns that start time with the time of the
    stop as end time, and stores the game as ["ended"] with exactly
    these two times. *)
Theorem startGame_then_stopGame
    token gid arn ev token' d' fromSchedule w c w1 w2 :
  startGame token (Hex gid) arn ev w = (Ok c, w1) →
  gameColl w2 = gameColl w1 →
  verifyToken token' gid [Host; Admin] = Ok d' →
  ∃ w3 g3,
    stopGame token' (Hex gid) fromSchedule w2
    = (Ok {| conf_startTime := conf_startTime c;
             conf_endTime := clock w2 |}, w3)
    ∧ gameColl w3 !! gid = Some g3
    ∧ state g3 = Ended
    ∧ startTime (settings g3) = conf_startTime c
    ∧ endTime (settings g3) = clock w2.
Proof.
  intros Hstart Hsame Hv'.
  apply startGame_Ok in Hstart
    as (gid0 & d & g & [= <-] & Hv & Hg & Hst & Hconf & Hcoll).
  rewrite <- Hsame in Hcoll.
  destruct (started_doc g (clock w)
              (if duration (settings g) =? 0 then 0
               else clock w + duration (settings g) * 1000) Hst)
    as (_ & Hrunning & Hset & _).
  match type of Hcoll with
  | _ = <[_ := ?doc]> _ =>
      assert (Hg1 : gameColl w2 !! gid = Some doc)
        by (by rewrite Hcoll, lookup_insert_eq);
      destruct (stopGame_running_doc token' gid fromSchedule w2 d' doc
                  Hv' Hg1 Hrunning) as (w3 & Hstop & Hcoll3 & _)
  end.
  eexists w3, _. split.
  { rewrite Hstop, Hconf. by rewrite Hset. }
  split; [by rewrite Hcoll3, lookup_insert_eq |].
  simpl. by rewrite Hconf.
Qed.

End Starting.

Section Deleting.
Context `{Constants}.

(** ** More on [deleteGame] *)

(** X20. A successful [deleteGame] takes the game and its players with
    it and nothing else.  For a game that is not running and a caller
    whose token is accepted, it returns the game as it was stored,
    removes it, removes exactly the player records that point to it, and
    leaves every other game and the count of open sessions as they
    were. *)
Theorem deleteGame_cascade token gid w d g :
  verifyToken token gid [Host; Admin] = Ok d →
  gameColl w !! gid = Some g →
  state g ≠ Running →
  ∃ w',
    deleteGame token (Hex gid) w = (Ok g, w')
    ∧ gameColl w' !! gid = None
    ∧ (∀ other, other ≠ gid → gameColl w' !! other = gameColl w !! other)
    ∧ (∀ pid p, playerColl w' !! pid = Some p ↔
                playerColl w !! pid = Some p ∧ player_gameId p ≠ gid)
    ∧ openSessions w' = openSessions w.
Proof.
  intros Hv Hg Hst.
  unfold deleteGame, deleteGame_checks, bind. simpl.
  rewrite Hv. simpl. rewrite Hg. simpl.
  rewrite bool_decide_eq_true_2 by done. simpl.
  unfold deleteGame_commit, bind, then_, startSession, withTransaction,
    try_catch, deleteGame_transaction, bind, games_deleteOne,
    players_deleteMany. simpl. rewrite Hg. simpl.
  eexists. split; [reflexivity |]. simpl. repeat apply conj.
  - apply lookup_delete_eq.
  - intros other Hne. by apply lookup_delete_ne.
  - intros pid p. rewrite map_lookup_filter_Some. simpl. tauto.
  - done.
Qed.

End Deleting.

Section Invariants.
Context `{Constants}.

(** ** What no call does *)

Lemma joinGame_checks_readonly token raw role code w :
  (joinGame_checks token raw role code w).2 = w.
Proof.
  unfold joinGame_checks, bind. destruct raw as [gid|]; simpl; [| done].
  destruct (assert _ "Invalid admin creds" w) as [[u|e] w0] eqn:Ha.
  2: { unfold assert in Ha. by destruct (_ || _); injection Ha as _ <-. }
  apply assert_Ok in Ha as [_ ->].
  destruct (jwt_verify token ACCESS_TOKEN_KEY) as [d|e]; simpl; [| done].
  destruct (gameColl w !! gid) as [g|]; simpl; [| done].
  repeat match goal with
  | |- context [assert ?b ?m w] => destruct b; simpl; [| done]
  end.
  done.
Qed.

Lemma joinGame_transaction_any d gid g role w r w' :
  joinGame_transaction d gid g role w = (r, w') →
  gameColl w' = gameColl w
  ∨ ∃ g0, gameColl w !! gid = Some g0
          ∧ gameColl w' =
            <[gid := apply_update (join_update role (username d) g) g0]>
              (gameColl w).
Proof.
  destruct role.
  - rewrite joinGame_transaction_player. unfold bind at 1.
    destruct (players_insertOne _ w) as [[res|e] w1] eqn:Hins.
    + apply players_insertOne_Ok in Hins as (Hg & _ & _ & Hack & Hid).
      rewrite Hack, bool_decide_eq_true_2 by done. simpl.
      rewrite bind_ret, update_then_assert, Hg.
      destruct (gameColl w !! gid) as [g0|]; [case_bool_decide |];
        intros [= <- <-]; simpl; eauto.
    + apply players_insertOne_Throw in Hins as [Hg _]. intros [= <- <-]. eauto.
  - rewrite joinGame_transaction_admin, update_then_assert.
    destruct (gameColl w !! gid) as [g0|]; [case_bool_decide |];
      intros [= <- <-]; simpl; eauto.
Qed.

Lemma joinGame_any token raw role code w r w' :
  joinGame token raw role code w = (r, w') → store_change w w'.
Proof.
  unfold joinGame, bind.
  pose proof (joinGame_checks_readonly token raw role code w) as Hro.
  destruct (joinGame_checks token raw role code w) as [[x|e] w0] eqn:Hchk;
    simpl in Hro; subst w0.
  2: { intros [= <- <-]. by apply store_same. }
  apply joinGame_checks_Ok in Hchk
    as (gid & d & g & -> & _ & -> & Hd & Hg & Hh & Hp & Ha & Hpl & Had).
  rewrite joinGame_commit_run. simpl.
  destruct (joinGame_transaction _ _ _ _ _) as [[u|e] w2] eqn:Htx;
    apply joinGame_transaction_any in Htx as [Hsame | (g0 & Hg0 & Hcoll)];
    intros [= <- <-]; simpl in *.
  - by apply store_same.
  - rewrite Hg in Hg0. injection Hg0 as <-.
    eapply store_rewritten; [exact Hg | | exact Hcoll].
    apply doc_join; try done; [intros Hr; by apply Hpl | intros Hr; by apply Had].
  - by apply store_same.
  - rewrite Hg in Hg0. injection Hg0 as <-.
    eapply store_rewritten; [exact Hg | | exact Hcoll].
    apply doc_join; try done; [intros Hr; by apply Hpl | intros Hr; by apply Had].
Qed.

Lemma createGame_any token settings0 tasks0 w r w' :
  createGame token settings0 tasks0 w = (r, w') → store_change w w'.
Proof.
  intros Hrun.
  destruct (createGame_cases token settings0 tasks0 w)
    as [(e0 & w0 & Hthrow & Hg & _)
       | (d & id & l' & _ & Hroom & _ & Hnew & Hok)].
  - rewrite Hrun in Hthrow. injection Hthrow as _ <-. by apply store_same.
  - rewrite Hrun in Hok. injection Hok as _ ->.
    eapply store_created; [exact Hnew | | exact Hroom | reflexivity].
    by repeat split.
Qed.

Lemma restartGame_any token raw w r w' :
  restartGame token raw w = (r, w') → store_change w w'.
Proof.
  unfold restartGame, bind. destruct raw as [gid|]; simpl.
  2: { intros [= <- <-]. by apply store_same. }
  destruct (verifyToken token gid [Host; Admin]); simpl.
  2: { intros [= <- <-]. by apply store_same. }
  destruct (gameColl w !! gid) as [g|]; simpl.
  2: { intros [= <- <-]. by apply store_same. }
  case_bool_decide; simpl.
  2: { intros [= <- <-]. by apply store_same. }
  apply createGame_any.
Qed.

Lemma leaveGame_any token raw w r w' :
  leaveGame token raw w = (r, w') → store_change w w'.
Proof.
  unfold leaveGame. destruct raw as [gid|]; simpl.
  2: { intros [= <- <-]. by apply store_same. }
  rewrite bind_ret. unfold bind at 1.
  destruct (verifyToken token gid [Player; Admin]) as [d|e]; simpl.
  2: { intros [= <- <-]. by apply store_same. }
  rewrite update_then_assert.
  destruct (gameColl w !! gid) as [g|] eqn:Hg; [case_bool_decide |];
    intros [= <- <-]; try (by apply store_same).
  eapply store_rewritten; [exact Hg | | reflexivity].
  apply (doc_leave g (username d)).
Qed.

Lemma startGame_any token raw arn ev w r w' :
  startGame token raw arn ev w = (r, w') → store_change w w'.
Proof.
  destruct raw as [gid|]; [| intros [= <- <-]; by apply store_same].
  destruct (verifyToken token gid [Host; Admin]) as [d|e] eqn:Hv.
  2: { destruct (guarded_calls_unauthorized token gid e arn ev None w Hv)
         as (_ & -> & _). intros [= <- <-]. by apply store_same. }
  destruct (gameColl w !! gid) as [g|] eqn:Hg.
  2: { unfold startGame, bind. simpl. rewrite Hv. simpl. rewrite Hg. simpl.
       intros [= <- <-]. by apply store_same. }
  destruct (decide (state g = Ready)) as [Hst | Hst].
  - destruct (startGame_ready_cases token gid arn ev w d g Hv Hg Hst)
      as (r0 & w0 & -> & Hcoll & _). intros [= <- <-].
    eapply store_rewritten; [exact Hg | | exact Hcoll]. by apply doc_start.
  - destruct (startGame_wrong_state token gid arn ev w g Hg Hst)
      as (e & -> & _). intros [= <- <-]. by apply store_same.
Qed.

Lemma stopGame_any token raw fromSchedule w r w' :
  stopGame token raw fromSchedule w = (r, w') → store_change w w'.
Proof.
  destruct raw as [gid|]; [| intros [= <- <-]; by apply store_same].
  destruct (verifyToken token gid [Host; Admin]) as [d|e] eqn:Hv.
  2: { destruct (guarded_calls_unauthorized token gid e None None
                   fromSchedule w Hv) as (_ & _ & -> & _).
       intros [= <- <-]. by apply store_same. }
  destruct (gameColl w !! gid) as [g|] eqn:Hg.
  2: { unfold stopGame, bind. simpl. rewrite Hv. simpl. rewrite Hg. simpl.
       intros [= <- <-]. by apply store_same. }
  destruct (decide (state g = Running)) as [Hst | Hst].
  - destruct (stopGame_running_doc token gid fromSchedule w d g Hv Hg Hst)
      as (w0 & -> & Hcoll & _). intros [= <- <-].
    eapply store_rewritten; [exact Hg | | exact Hcoll]. by apply doc_stop.
  - destruct (stopGame_wrong_state token gid fromSchedule w g Hg Hst)
      as (e & -> & _). intros [= <- <-]. by apply store_same.
Qed.

Lemma deleteGame_any token raw w r w' :
  deleteGame token raw w = (r, w') → store_change w w'.
Proof.
  unfold deleteGame, deleteGame_checks, bind. destruct raw as [gid|]; simpl.
  2: { intros [= <- <-]. by apply store_same. }
  destruct (verifyToken token gid [Host; Admin]); simpl.
  2: { intros [= <- <-]. by apply store_same. }
  destruct (gameColl w !! gid) as [g|] eqn:Hg; simpl.
  2: { intros [= <- <-]. by apply store_same. }
  case_bool_decide; simpl.
  2: { intros [= <- <-]. by apply store_same. }
  unfold deleteGame_commit, bind, then_, startSession, withTransaction,
    try_catch, deleteGame_transaction, bind, games_deleteOne,
    players_deleteMany. simpl. rewrite Hg. simpl.
  intros [= <- <-]. by eapply store_deleted.
Qed.

Lemma reads_change_nothing token raw w :
  (getGame token raw w).2 = w
  ∧ (getPublicGame raw w).2 = w
  ∧ (listPublicGames w).2 = w.
Proof.
  repeat apply conj.
  - unfold getGame, bind. destruct raw as [gid|]; simpl; [| done].
    destruct (verifyToken token gid [Host; Admin]); simpl; [| done].
    by destruct (gameColl w !! gid).
  - unfold getPublicGame, bind. destruct raw as [gid|]; simpl; [| done].
    by destruct (gameColl w !! gid).
  - by rewrite listPublicGames_run.
Qed.

(** Every call changes the games collection in one of the four ways. *)
Lemma call_store_change w w' : call w w' → store_change w w'.
Proof.
  destruct 1 as [token s t r w w' Hrun | token raw role code r w w' Hrun
                | token raw r w w' Hrun | raw r w w' Hrun | r w w' Hrun
                | token raw r w w' Hrun | token raw arn ev r w w' Hrun
                | token raw fs r w w' Hrun | token raw r w w' Hrun
                | token raw r w w' Hrun].
  - by eapply createGame_any.
  - by eapply joinGame_any.
  - apply store_same.
    destruct (reads_change_nothing token raw w) as (Hro & _ & _).
    rewrite Hrun in Hro. simpl in Hro. by subst.
  - apply store_same.
    destruct (reads_change_nothing Unverifiable raw w) as (_ & Hro & _).
    rewrite Hrun in Hro. simpl in Hro. by subst.
  - apply store_same.
    destruct (reads_change_nothing Unverifiable Malformed w) as (_ & _ & Hro).
    rewrite Hrun in Hro. simpl in Hro. by subst.
  - by eapply leaveGame_any.
  - by eapply startGame_any.
  - by eapply stopGame_any.
  - by eapply restartGame_any.
  - by eapply deleteGame_any.
Qed.

Lemma apply_join_update_rest role user g g0 :
  host (apply_update (join_update role user g) g0) = host g0
  ∧ tasks (apply_update (join_update role user g) g0) = tasks g0.
Proof.
  unfold apply_update, join_update.
  by destruct role, (fills_minimum _ g).
Qed.

(** What a rewrite of a game keeps and how it moves the state. *)
Lemma doc_change_keeps g g' :
  doc_change g g' →
  host g' = host g ∧ tasks g' = tasks g
  ∧ sans_timestamps (settings g') = sans_timestamps (settings g)
  ∧ (state g' = state g ∨ edge (state g) (state g')).
Proof.
  destruct 1 as [g | g r user _ _ _ _ _ | g user | g t1 t2 Hst | g t Hst].
  - by repeat split; [left].
  - destruct (apply_join_update r user g g) as (Hset & Hstate & _ & _).
    destruct (apply_join_update_rest r user g g) as [Hh Ht].
    rewrite Hh, Ht, Hset, Hstate. repeat split.
    destruct (fills_minimum r g) eqn:Hf; [| by left].
    apply fills_minimum_true in Hf as (_ & -> & _). right. constructor.
  - simpl. by repeat split; [left].
  - simpl. rewrite Hst. repeat split. right. constructor.
  - simpl. rewrite Hst. repeat split. right. constructor.
Qed.

(** A game that is there before and after a call was rewritten in one
    of the ways of [doc_change]. *)
Lemma call_existing_game w w' id g g' :
  call w w' →
  gameColl w !! id = Some g → gameColl w' !! id = Some g' →
  doc_change g g'.
Proof.
  intros Hcall Hg Hg'. apply call_store_change in Hcall.
  destruct Hcall as [w w' Hcoll | w w' id0 g0 Hnew _ _ Hcoll
                    | w w' id0 g0 g1 Hg0 Hchange Hcoll
                    | w w' id0 g0 Hg0 _ Hcoll]; rewrite Hcoll in Hg'.
  - rewrite Hg in Hg'. injection Hg' as <-. constructor.
  - rewrite lookup_insert_ne in Hg' by congruence.
    rewrite Hg in Hg'. injection Hg' as <-. constructor.
  - destruct (decide (id0 = id)) as [-> | Hne].
    + rewrite lookup_insert_eq in Hg'. injection Hg' as <-.
      rewrite Hg in Hg0. by injection Hg0 as <-.
    + rewrite lookup_insert_ne in Hg' by done.
      rewrite Hg in Hg'. injection Hg' as <-. constructor.
  - destruct (decide (id0 = id)) as [-> | Hne].
    + by rewrite lookup_delete_eq in Hg'.
    + rewrite lookup_delete_ne in Hg' by done.
      rewrite Hg in Hg'. injection Hg' as <-. constructor.
Qed.


(** X22. No call rewrites what a game is about: the host, the tasks
    with their ids, and all settings but the two timestamps of a stored
    game are the same after every call, whatever its arguments and
    outcome. *)
Theorem calls_keep_host_tasks_settings w w' id g g' :
  call w w' →
  gameColl w !! id = Some g →
  gameColl w' !! id = Some g' →
  host g' = host g ∧ tasks g' = tasks g
  ∧ sans_timestamps (settings g') = sans_timestamps (settings g).
Proof.
  intros Hcall Hg Hg'.
  destruct (doc_change_keeps g g' (call_existing_game w w' id g g' Hcall Hg Hg'))
    as (? & ? & ? & _).
  done.
Qed.


(** A property of games that holds for new games and survives every
    rewrite holds for all games after every sequence of calls. *)
Lemma calls_preserve (P : GameSchema → Prop) :
  (∀ g, doc_created g → P g) →
  (∀ g g', doc_change g g' → P g → P g') →
  ∀ w w', calls w w' → all_games P w → all_games P w'.
Proof.
  intros Hnew Hkeep w w' Hcalls.
  induction Hcalls as [w | w w1 w2 Hcall _ IH]; [done |].
  intros Hall. apply IH. clear IH. intros id g' Hg'.
  apply call_store_change in Hcall.
  destruct Hcall as [w w' Hcoll | w w' id0 g0 Hnone Hcreated _ Hcoll
                    | w w' id0 g0 g1 Hg0 Hchange Hcoll
                    | w w' id0 g0 Hg0 _ Hcoll]; rewrite Hcoll in Hg'.
  - by apply (Hall id).
  - destruct (decide (id0 = id)) as [-> | Hne].
    + rewrite lookup_insert_eq in Hg'. injection Hg' as <-. by apply Hnew.
    + rewrite lookup_insert_ne in Hg' by done. by apply (Hall id).
  - destruct (decide (id0 = id)) as [-> | Hne].
    + rewrite lookup_insert_eq in Hg'. injection Hg' as <-.
      apply (Hkeep g0); [done |]. by apply (Hall id).
    + rewrite lookup_insert_ne in Hg' by done. by apply (Hall id).
  - destruct (decide (id0 = id)) as [-> | Hne].
    + by rewrite lookup_delete_eq in Hg'.
    + rewrite lookup_delete_ne in Hg' by done. by apply (Hall id).
Qed.

Lemma doc_change_rosters g g' :
  doc_change g g' →
  host g' = host g
  ∧ ((players g' = players g ∧ admins g' = admins g)
     ∨ (∃ user, players g' = players g ++ [user] ∧ admins g' = admins g
                ∧ (user ≠ host g) ∧ (user ∉ players g) ∧ (user ∉ admins g)
                ∧ Z.of_nat (length (players g)) < maxPlayers (settings g))
     ∨ (∃ user, admins g' = admins g ++ [user] ∧ players g' = players g
                ∧ (user ≠ host g) ∧ (user ∉ players g) ∧ (user ∉ admins g)
                ∧ Z.of_nat (length (admins g)) < MAX_ADMINS)
     ∨ (∃ user, players g' = pull user (players g) ∧ admins g' = admins g)).
Proof.
  destruct 1 as [g | g r user Hh Hp Ha Hroom Hcap | g user | g t1 t2 _ | g t _].
  - split; [done |]. by left.
  - destruct (apply_join_update r user g g) as (_ & _ & Hpl & Had).
    destruct (apply_join_update_rest r user g g) as [Hhost _].
    split; [done |]. rewrite Hpl, Had. destruct r.
    + right. left. exists user. rewrite addToSet_new by done.
      repeat split; try done. by apply Hroom.
    + right. right. left. exists user. rewrite addToSet_new by done.
      repeat split; try done. by apply Hcap.
  - split; [done |]. right. right. right. by exists user.
  - split; [done |]. by left.
  - split; [done |]. by left.
Qed.

(** X24. Host, admins and players stay apart.  If in every stored game
    the host, the admins and the players are pairwise different users,
    each listed once, then the same holds after any sequence of calls of
    the functions of [game.ts], whatever their arguments and outcomes;
    it holds in particular for every game that such calls create. *)
Theorem calls_keep_rosters_exclusive w w' :
  calls w w' →
  all_games roster_exclusive w → all_games roster_exclusive w'.
Proof.
  apply calls_preserve.
  - intros g (Hp & Ha & _). unfold roster_exclusive. rewrite Hp, Ha. simpl.
    apply NoDup_singleton.
  - intros g g' Hchange. unfold roster_exclusive.
    destruct (doc_change_rosters g g' Hchange)
      as (-> & [[-> ->] | [(u & -> & -> & Hh & Hp & Ha & _)
                          | [(u & -> & -> & Hh & Hp & Ha & _)
                            | (u & -> & ->)]]]); [done | | |].
    + intros Hnd.
      rewrite app_assoc, app_comm_cons.
      apply NoDup_app. split; [done |]. split; [| apply NoDup_singleton].
      intros x Hx Hxu. apply list_elem_of_singleton in Hxu as ->.
      apply elem_of_cons in Hx as [-> | Hx]; [done |].
      apply elem_of_app in Hx as [Hx | Hx]; done.
    + rewrite !NoDup_cons, !NoDup_app, !elem_of_app.
      intros (Hhost & Hadm & Hdisj & Hpl).
      split; [| split; [split; [done | split; [| apply NoDup_singleton]] | split]].
      * intros [[Hx | Hx] | Hx]; [tauto | | tauto].
        apply list_elem_of_singleton in Hx. congruence.
      * intros x Hx Hxu. apply list_elem_of_singleton in Hxu as ->. done.
      * intros x Hx. apply elem_of_app in Hx as [Hx | Hx]; [by apply Hdisj |].
        apply list_elem_of_singleton in Hx as ->. done.
      * done.
    + rewrite !NoDup_cons, !NoDup_app, !elem_of_app.
      intros (Hhost & Hadm & Hdisj & Hpl).
      split; [| split; [done | split]].
      * intros [Hx | Hx]; [tauto |].
        unfold pull in Hx. apply list_elem_of_filter in Hx as [_ Hx]. tauto.
      * intros x Hx Hxp. unfold pull in Hxp.
        apply list_elem_of_filter in Hxp as [_ Hxp]. by apply (Hdisj x).
      * by apply NoDup_filter.
Qed.

(** X25. The admins stay within their capacity.  If every stored game
    has at most [MAX_ADMINS] admins (a capacity below 0 counting as 0),
    then so has every game after any sequence of calls of the functions
    of [game.ts], whatever their arguments and outcomes. *)
Theorem calls_keep_admins_bounded w w' :
  calls w w' →
  all_games admins_bounded w → all_games admins_bounded w'.
Proof.
  apply calls_preserve.
  - intros g (_ & Ha & _). unfold admins_bounded. rewrite Ha. simpl. lia.
  - intros g g' Hchange. unfold admins_bounded.
    destruct (doc_change_rosters g g' Hchange)
      as (_ & [[_ ->] | [(u & _ & -> & _)
                        | [(u & -> & _ & _ & _ & _ & Hcap)
                          | (u & _ & ->)]]]); [done | done | | done].
    rewrite length_app. simpl. lia.
Qed.

(** X26. The store never grows beyond [MAX_GAMES]: if it holds at most
    [MAX_GAMES] games, it holds at most [MAX_GAMES] games after any
    sequence of calls, whatever their arguments and outcomes. *)
Theorem calls_keep_game_count_bounded w w' :
  calls w w' →
  Z.of_nat (size (gameColl w)) ≤ MAX_GAMES →
  Z.of_nat (size (gameColl w')) ≤ MAX_GAMES.
Proof.
  induction 1 as [w | w w1 w2 Hcall _ IH]; [done |].
  intros Hsize. apply IH. clear IH. apply call_store_change in Hcall.
  destruct Hcall as [w w' Hcoll | w w' id0 g0 Hnone _ Hroom Hcoll
                    | w w' id0 g0 g1 Hg0 _ Hcoll
                    | w w' id0 g0 Hg0 _ Hcoll]; rewrite Hcoll.
  - done.
  - rewrite map_size_insert_None by done. lia.
  - rewrite map_size_insert_Some by done. lia.
  - rewrite map_size_delete_Some by done. lia.
Qed.

End Invariants.

(** ** The further properties in the concrete deployment *)

Section MoreScenarios.
#[local] Existing Instance demo_constants.

Lemma unauthorized_call_changes_nothing_witness :
  verifyToken (scoped "ivo" 2 Player) 2 [Host; Admin] = Throw Forbidden
  ∧ (getGame (scoped "ivo" 2 Player) (Hex 2) w_full = (Throw Forbidden, w_full)
     ∧ startGame (scoped "ivo" 2 Player) (Hex 2) None None w_full
       = (Throw Forbidden, w_full)
     ∧ stopGame (scoped "ivo" 2 Player) (Hex 2) None w_full
       = (Throw Forbidden, w_full)
     ∧ restartGame (scoped "ivo" 2 Player) (Hex 2) w_full
       = (Throw Forbidden, w_full)
     ∧ deleteGame (scoped "ivo" 2 Player) (Hex 2) w_full
       = (Throw Forbidden, w_full))
  ∧ verifyToken (scoped "hana" 2 Host) 2 [Player; Admin] = Throw Forbidden
  ∧ leaveGame (scoped "hana" 2 Host) (Hex 2) w_full
    = (Throw Forbidden, w_full).
Proof.
  assert (H1 : verifyToken (scoped "ivo" 2 Player) 2 [Host; Admin]
               = Throw Forbidden) by (vm_compute; reflexivity).
  assert (H2 : verifyToken (scoped "hana" 2 Host) 2 [Player; Admin]
               = Throw Forbidden) by (vm_compute; reflexivity).
  split; [exact H1 |]. split.
  { exact (proj1 (unauthorized_call_changes_nothing (scoped "ivo" 2 Player)
                    2%positive None None None w_full) Forbidden H1). }
  split; [exact H2 |].
  exact (proj2 (unauthorized_call_changes_nothing (scoped "hana" 2 Host)
                  2%positive None None None w_full) Forbidden H2).
Defined.

Lemma missing_game_rejected_witness :
  gameColl w_created !! 9%positive = None
  ∧ verifyToken (scoped "hana" 9 Host) 9 [Host; Admin]
    = Ok (with_role Host (with_gameId 9 (claims "hana")))
  ∧ (getGame (scoped "hana" 9 Host) (Hex 9) w_created
     = (Throw (AssertionError "Invalid game ID"), w_created)
     ∧ startGame (scoped "hana" 9 Host) (Hex 9) None None w_created
       = (Throw (AssertionError "Invalid game ID"), w_created)
     ∧ stopGame (scoped "hana" 9 Host) (Hex 9) None w_created
       = (Throw (AssertionError "Invalid game ID"), w_created)
     ∧ restartGame (scoped "hana" 9 Host) (Hex 9) w_created
       = (Throw (AssertionError "Invalid game ID"), w_created)
     ∧ deleteGame (scoped "hana" 9 Host) (Hex 9) w_created
       = (Throw (AssertionError "Invalid game ID"), w_created))
  ∧ getPublicGame (Hex 9) w_created
    = (Throw (AssertionError "Invalid game"), w_created)
  ∧ verifyToken (scoped "ivo" 9 Player) 9 [Player; Admin]
    = Ok (with_role Player (with_gameId 9 (claims "ivo")))
  ∧ leaveGame (scoped "ivo" 9 Player) (Hex 9) w_created
    = (Throw NoPlayerRemoved, w_created).
Proof.
  assert (Hnone : gameColl w_created !! 9%positive = None)
    by (vm_compute; reflexivity).
  assert (Hv : verifyToken (scoped "hana" 9 Host) 9 [Host; Admin]
               = Ok (with_role Host (with_gameId 9 (claims "hana"))))
    by (vm_compute; reflexivity).
  assert (Hv' : verifyToken (scoped "ivo" 9 Player) 9 [Player; Admin]
                = Ok (with_role Player (with_gameId 9 (claims "ivo"))))
    by (vm_compute; reflexivity).
  destruct (missing_game_rejected (scoped "hana" 9 Host) 9%positive
              None None None w_created Hnone) as (Hfive & Hpublic & _).
  destruct (missing_game_rejected (scoped "ivo" 9 Player) 9%positive
              None None None w_created Hnone) as (_ & _ & Hleave).
  split; [exact Hnone |]. split; [exact Hv |].
  split; [exact (Hfive _ Hv) |]. split; [exact Hpublic |].
  split; [exact Hv' |]. exact (Hleave _ Hv').
Defined.

Lemma createGame_then_getGame_witness :
  createGame (identity "hana") open_settings quiz new_world
  = (Ok {| creds := upgradeCredentials (claims "hana") 2 Host;
           gameid := Hex 2; taskids := [Hex 1] |}, w_created)
  ∧ ∃ id d g,
      Hex 2 = Hex id
      ∧ jwt_verify (identity "hana") ACCESS_TOKEN_KEY = Ok d
      ∧ getGame (accessToken (upgradeCredentials (claims "hana") 2 Host))
                (Hex 2) w_created
        = (Ok (id, g), w_created)
      ∧ host g = username d
      ∧ players g = [] ∧ admins g = []
      ∧ length (tasks g) = length quiz
      ∧ map task_body (tasks g) = map task_body quiz
      ∧ map (λ t, Hex (task_id t)) (tasks g) = [Hex 1].
Proof.
  split; [vm_compute; reflexivity |].
  apply (createGame_then_getGame (identity "hana") open_settings quiz
           new_world
           {| creds := upgradeCredentials (claims "hana") 2 Host;
              gameid := Hex 2; taskids := [Hex 1] |} w_created).
  vm_compute; reflexivity.
Defined.


Lemma createGame_at_capacity_witness :
  @MAX_GAMES single_table ≤ Z.of_nat (size (gameColl w_created))
  ∧ @createGame single_table (identity "jo") duel_settings [] w_created
    = (Throw (AssertionError "Max games reached"), w_created).
Proof.
  assert (Hfull : @MAX_GAMES single_table
                  ≤ Z.of_nat (size (gameColl w_created)))
    by (vm_compute; discriminate).
  split; [exact Hfull |].
  exact (@createGame_at_capacity single_table (identity "jo") duel_settings []
           w_created Hfull).
Defined.

Lemma createGame_rejected_token_changes_nothing_witness :
  Z.of_nat (size (gameColl w_created)) < MAX_GAMES
  ∧ jwt_verify Unverifiable ACCESS_TOKEN_KEY = Throw JsonWebTokenError
  ∧ createGame Unverifiable open_settings quiz w_created
    = (Throw JsonWebTokenError, w_created).
Proof.
  assert (Hroom : Z.of_nat (size (gameColl w_created)) < MAX_GAMES)
    by (vm_compute; reflexivity).
  assert (Hd : jwt_verify Unverifiable ACCESS_TOKEN_KEY
               = Throw JsonWebTokenError) by reflexivity.
  split; [exact Hroom |]. split; [exact Hd |].
  exact (createGame_rejected_token_changes_nothing Unverifiable open_settings
           quiz w_created JsonWebTokenError Hroom Hd).
Defined.

Lemma createGame_stores_settings_witness :
  createGame (identity "hana") timed_settings quiz new_world
  = (Ok {| creds := upgradeCredentials (claims "hana") 2 Host;
           gameid := Hex 2; taskids := [Hex 1] |}, w_timed)
  ∧ safe_integer (startTime timed_settings)
  ∧ safe_integer (duration timed_settings)
  ∧ safe_integer (startTime timed_settings + duration timed_settings)
  ∧ ∃ id g,
      Hex 2 = Hex id
      ∧ gameColl new_world !! id = None
      ∧ gameColl w_timed = <[id := g]> (gameColl new_world)
      ∧ playerColl w_timed = playerColl new_world
      ∧ settings g
        = with_endTime
            (if duration timed_settings =? 0 then 0
             else startTime timed_settings + duration timed_settings)
            timed_settings
      ∧ ∀ other, other ≠ id →
                 gameColl w_timed !! other = gameColl new_world !! other.
Proof.
  assert (Hrun : createGame (identity "hana") timed_settings quiz new_world
                 = (Ok {| creds := upgradeCredentials (claims "hana") 2 Host;
                          gameid := Hex 2; taskids := [Hex 1] |}, w_timed))
    by (vm_compute; reflexivity).
  assert (H1 : safe_integer (startTime timed_settings))
    by (unfold safe_integer, MAX_SAFE_INTEGER; simpl; lia).
  assert (H2 : safe_integer (duration timed_settings))
    by (unfold safe_integer, MAX_SAFE_INTEGER; simpl; lia).
  assert (H3 : safe_integer (startTime timed_settings
                             + duration timed_settings))
    by (unfold safe_integer, MAX_SAFE_INTEGER; simpl; lia).
  split; [exact Hrun |]. split; [exact H1 |]. split; [exact H2 |].
  split; [exact H3 |].
  exact (createGame_stores_settings (identity "hana") timed_settings quiz
           new_world _ w_timed Hrun H1 H2 H3).
Defined.

Lemma createGame_ids_fresh_witness :
  createGame (identity "hana") timed_settings quiz new_world
  = (Ok {| creds := upgradeCredentials (claims "hana") 2 Host;
           gameid := Hex 2; taskids := [Hex 1] |}, w_timed)
  ∧ ∃ id,
      Hex 2 = Hex id
      ∧ length [Hex 1] = length quiz
      ∧ NoDup [Hex 1]
      ∧ (Hex 2 ∉ [Hex 1])
      ∧ (nextId new_world ≤ id)%positive
      ∧ ∀ t, Hex t ∈ [Hex 1] → (nextId new_world ≤ t < id)%positive.
Proof.
  split; [vm_compute; reflexivity |].
  apply (createGame_ids_fresh (identity "hana") timed_settings quiz new_world
           {| creds := upgradeCredentials (claims "hana") 2 Host;
              gameid := Hex 2; taskids := [Hex 1] |} w_timed).
  vm_compute; reflexivity.
Defined.

Ltac not_listed :=
  let Hin := fresh "Hin" in
  intros Hin;
  repeat (apply elem_of_cons in Hin as [Hin | Hin]; [discriminate |]);
  by apply elem_of_nil in Hin.

Lemma joinGame_admin_needs_code_witness :
  ¬ (∃ c codes, Some "guess"%string = Some c ∧ c ≠ EmptyString
                ∧ ADMIN_CODES = Some codes ∧ c ∈ codes)
  ∧ joinGame (identity "kim") (Hex 2) AsAdmin (Some "guess"%string) w_created
    = (Throw (AssertionError "Invalid admin creds"), w_created).
Proof.
  assert (Hbad : ¬ (∃ c codes, Some "guess"%string = Some c ∧ c ≠ EmptyString
                               ∧ ADMIN_CODES = Some codes ∧ c ∈ codes)).
  { intros (c & codes & [= <-] & _ & [= <-] & Hin). revert Hin. not_listed. }
  split; [exact Hbad |].
  exact (joinGame_admin_needs_code (identity "kim") 2%positive
           (Some "guess"%string) w_created Hbad).
Defined.


Lemma joinGame_admin_any_state_witness :
  state ended_game = Ended
  ∧ admin_code_ok (Some "letmein"%string) ADMIN_CODES = true
  ∧ jwt_verify (identity "kim") ACCESS_TOKEN_KEY = Ok (claims "kim")
  ∧ gameColl w_ended !! 2%positive = Some ended_game
  ∧ (username (claims "kim") ≠ host ended_game)
  ∧ (username (claims "kim") ∉ players ended_game)
  ∧ (username (claims "kim") ∉ admins ended_game)
  ∧ Z.of_nat (length (admins ended_game)) < MAX_ADMINS
  ∧ joinGame (identity "kim") (Hex 2) AsAdmin (Some "letmein"%string) w_ended
    = (Ok (upgradeCredentials (claims "kim") 2 Admin),
       with_gameColl
         (<[2%positive := with_admins
                            (admins ended_game ++ [username (claims "kim")])
                            ended_game]> (gameColl w_ended)) w_ended).
Proof.
  assert (Hcode : admin_code_ok (Some "letmein"%string) ADMIN_CODES = true)
    by (vm_compute; reflexivity).
  assert (Hd : jwt_verify (identity "kim") ACCESS_TOKEN_KEY
               = Ok (claims "kim")) by (vm_compute; reflexivity).
  assert (Hg : gameColl w_ended !! 2%positive = Some ended_game)
    by (vm_compute; reflexivity).
  assert (Hh : username (claims "kim") ≠ host ended_game) by discriminate.
  assert (Hp : username (claims "kim") ∉ players ended_game)
    by (simpl; not_listed).
  assert (Ha : username (claims "kim") ∉ admins ended_game)
    by (simpl; not_listed).
  assert (Hcap : Z.of_nat (length (admins ended_game)) < MAX_ADMINS)
    by (simpl; lia).
  split; [reflexivity |]. split; [exact Hcode |]. split; [exact Hd |].
  split; [exact Hg |]. split; [exact Hh |]. split; [exact Hp |].
  split; [exact Ha |]. split; [exact Hcap |].
  exact (joinGame_admin_any_state (identity "kim") 2%positive
           (Some "letmein"%string) w_ended (claims "kim") ended_game
           Hcode Hd Hg Hh Hp Ha Hcap).
Defined.

Lemma joinGame_player_record_witness :
  jwt_verify (identity "ivo") ACCESS_TOKEN_KEY = Ok (claims "ivo")
  ∧ gameColl w_created !! 2%positive = Some open_game
  ∧ (username (claims "ivo") ≠ host open_game)
  ∧ (username (claims "ivo") ∉ players open_game)
  ∧ (username (claims "ivo") ∉ admins open_game)
  ∧ Z.of_nat (length (players open_game)) < maxPlayers (settings open_game)
  ∧ state open_game ≠ Ended
  ∧ playerColl w_created !! nextId w_created = None
  ∧ ∃ w',
      joinGame (identity "ivo") (Hex 2) AsPlayer None w_created
      = (Ok (upgradeCredentials (claims "ivo") 2 Player), w')
      ∧ playerColl w' = <[3%positive := ivo_record]> (playerColl w_created).
Proof.
  assert (Hd : jwt_verify (identity "ivo") ACCESS_TOKEN_KEY
               = Ok (claims "ivo")) by (vm_compute; reflexivity).
  assert (Hg : gameColl w_created !! 2%positive = Some open_game)
    by (vm_compute; reflexivity).
  assert (Hh : username (claims "ivo") ≠ host open_game) by discriminate.
  assert (Hp : username (claims "ivo") ∉ players open_game)
    by (simpl; not_listed).
  assert (Ha : username (claims "ivo") ∉ admins open_game)
    by (simpl; not_listed).
  assert (Hroom : Z.of_nat (length (players open_game))
                  < maxPlayers (settings open_game)) by (simpl; lia).
  assert (Hst : state open_game ≠ Ended) by discriminate.
  assert (Hfree : playerColl w_created !! nextId w_created = None)
    by (vm_compute; reflexivity).
  destruct (joinGame_player_record (identity "ivo") 2%positive None w_created
              (claims "ivo") open_game Hd Hg Hh Hp Ha Hroom Hst Hfree)
    as (w' & g' & Hrun & Hrec & _).
  split; [exact Hd |]. split; [exact Hg |]. split; [exact Hh |].
  split; [exact Hp |]. split; [exact Ha |]. split; [exact Hroom |].
  split; [exact Hst |]. split; [exact Hfree |].
  exists w'. split; [exact Hrun | exact Hrec].
Defined.

Lemma leaveGame_only_unseats_witness :
  verifyToken (scoped "ivo" 2 Player) 2 [Player; Admin]
  = Ok (with_role Player (with_gameId 2 (claims "ivo")))
  ∧ gameColl w_full !! 2%positive = Some full_game
  ∧ (username (with_role Player (with_gameId 2 (claims "ivo")))
     ∈ players full_game)
  ∧ ∃ w' g',
      leaveGame (scoped "ivo" 2 Player) (Hex 2) w_full = (Ok tt, w')
      ∧ gameColl w' = <[2%positive := g']> (gameColl w_full)
      ∧ ("ivo"%string ∉ players g')
      ∧ state g' = state full_game
      ∧ playerColl w' = playerColl w_full.
Proof.
  assert (Hv : verifyToken (scoped "ivo" 2 Player) 2 [Player; Admin]
               = Ok (with_role Player (with_gameId 2 (claims "ivo"))))
    by (vm_compute; reflexivity).
  assert (Hg : gameColl w_full !! 2%positive = Some full_game)
    by (vm_compute; reflexivity).
  assert (Hin : username (with_role Player (with_gameId 2 (claims "ivo")))
                ∈ players full_game) by (simpl; by left).
  destruct (leaveGame_only_unseats (scoped "ivo" 2 Player) 2%positive w_full
              _ full_game Hv Hg Hin)
    as (w' & g' & Hrun & Hcoll & Hout & _ & _ & Hst & _ & Hrec).
  split; [exact Hv |]. split; [exact Hg |]. split; [exact Hin |].
  exists w', g'. split; [exact Hrun |]. split; [exact Hcoll |].
  split; [exact Hout |]. split; [exact Hst | exact Hrec].
Defined.

Lemma joinGame_then_leaveGame_witness :
  joinGame (identity "ivo") (Hex 1) AsPlayer None w_waiting
  = (Ok (upgradeCredentials (claims "ivo") 1 Player), w_matched)
  ∧ ∃ gid g g1 g2 w2,
      Hex 1 = Hex gid
      ∧ gameColl w_waiting !! gid = Some g
      ∧ gameColl w_matched !! gid = Some g1
      ∧ leaveGame (scoped "ivo" 1 Player) (Hex 1) w_matched = (Ok tt, w2)
      ∧ gameColl w2 !! gid = Some g2
      ∧ players g2 = players g
      ∧ state g2 = state g1
      ∧ (state g = NotReady →
         Z.of_nat (length (players g)) = minPlayers (settings g) - 1 →
         state g2 = Ready)
      ∧ playerColl w2 = playerColl w_matched.
Proof.
  split; [vm_compute; reflexivity |].
  apply (joinGame_then_leaveGame (identity "ivo") (Hex 1) None w_waiting
           (upgradeCredentials (claims "ivo") 1 Player) w_matched).
  vm_compute; reflexivity.
Defined.



Lemma startGame_registers_timer_witness :
  verifyToken (scoped "hana" 2 Host) 2 [Host; Admin]
  = Ok (with_role Host (with_gameId 2 (claims "hana")))
  ∧ gameColl w_timed_online !! 2%positive = Some timed_game
  ∧ state timed_game = Ready
  ∧ 0 < duration (settings timed_game)
  ∧ ("arn:lambda/game"%string ≠ EmptyString)
  ∧ 0 ≤ clock w_timed_online
  ∧ clock w_timed_online + duration (settings timed_game) * 1000 < year_10000
  ∧ ∃ w' g',
      startGame (scoped "hana" 2 Host) (Hex 2) (Some "arn:lambda/game"%string)
                (Some stop_request) w_timed_online
      = (Ok {| conf_startTime := 1700250; conf_endTime := 1790250 |}, w')
      ∧ schedulerCalls w'
        = [CreateScheduleCommand (Hex 2) (to_the_second 1790)
             {| Arn := "arn:lambda/game"; RoleArn := "arn:role/scheduler";
                Input :=
                  {| headers := [("source", "scheduler");
                                 ("token", "host-token")]%string;
                     event_rest := "POST /games/2 {action: stop}" |} |}
             "vulture-timers"]
      ∧ gameColl w' = <[2%positive := g']> (gameColl w_timed_online)
      ∧ state g' = Running.
Proof.
  assert (Hv : verifyToken (scoped "hana" 2 Host) 2 [Host; Admin]
               = Ok (with_role Host (with_gameId 2 (claims "hana"))))
    by (vm_compute; reflexivity).
  assert (Hg : gameColl w_timed_online !! 2%positive = Some timed_game)
    by (vm_compute; reflexivity).
  assert (Hst : state timed_game = Ready) by reflexivity.
  assert (Hdur : 0 < duration (settings timed_game)) by (simpl; lia).
  assert (Harn : "arn:lambda/game"%string ≠ EmptyString) by discriminate.
  assert (Hnow : 0 ≤ clock w_timed_online) by (simpl; lia).
  assert (Hend : clock w_timed_online + duration (settings timed_game) * 1000
                 < year_10000) by (vm_compute; reflexivity).
  destruct (startGame_registers_timer (scoped "hana" 2 Host) 2%positive
              "arn:lambda/game" stop_request w_timed_online _ timed_game
              Hv Hg Hst Hdur Harn Hnow Hend)
    as (w' & g' & Hrun & Hcalls & _ & Hcoll & Hrunning & _).
  split; [exact Hv |]. split; [exact Hg |]. split; [exact Hst |].
  split; [exact Hdur |]. split; [exact Harn |]. split; [exact Hnow |].
  split; [exact Hend |].
  exists w', g'. split; [exact Hrun |]. split; [exact Hcalls |].
  split; [exact Hcoll | exact Hrunning].
Defined.

Lemma startGame_end_out_of_range_witness :
  verifyToken (scoped "hana" 2 Host) 2 [Host; Admin]
  = Ok (with_role Host (with_gameId 2 (claims "hana")))
  ∧ gameColl w_endless !! 2%positive = Some endless_game
  ∧ state endless_game = Ready
  ∧ 0 < duration (settings endless_game)
  ∧ ("arn:lambda/game"%string ≠ EmptyString)
  ∧ 0 ≤ clock w_endless
  ∧ Date_range < clock w_endless + duration (settings endless_game) * 1000
  ∧ ∃ w' g',
      startGame (scoped "hana" 2 Host) (Hex 2) (Some "arn:lambda/game"%string)
                (Some stop_request) w_endless
      = (Throw RangeError, w')
      ∧ schedulerCalls w' = schedulerCalls w_endless
      ∧ gameColl w' = <[2%positive := g']> (gameColl w_endless)
      ∧ state g' = Running
      ∧ startTime (settings g') = clock w_endless.
Proof.
  assert (Hv : verifyToken (scoped "hana" 2 Host) 2 [Host; Admin]
               = Ok (with_role Host (with_gameId 2 (claims "hana"))))
    by (vm_compute; reflexivity).
  assert (Hg : gameColl w_endless !! 2%positive = Some endless_game)
    by (vm_compute; reflexivity).
  assert (Hst : state endless_game = Ready) by reflexivity.
  assert (Hdur : 0 < duration (settings endless_game)) by (simpl; lia).
  assert (Harn : "arn:lambda/game"%string ≠ EmptyString) by discriminate.
  assert (Hnow : 0 ≤ clock w_endless) by (vm_compute; discriminate).
  assert (Hend : Date_range
                 < clock w_endless + duration (settings endless_game) * 1000)
    by (vm_compute; reflexivity).
  split; [exact Hv |]. split; [exact Hg |]. split; [exact Hst |].
  split; [exact Hdur |]. split; [exact Harn |]. split; [exact Hnow |].
  split; [exact Hend |].
  exact (startGame_end_out_of_range (scoped "hana" 2 Host) 2%positive
           "arn:lambda/game" stop_request w_endless _ endless_game
           Hv Hg Hst Hdur Harn Hnow Hend).
Defined.

Lemma startGame_then_stopGame_witness :
  startGame (scoped "hana" 2 Host) (Hex 2) None None w_staffed
  = (Ok {| conf_startTime := 1700000; conf_endTime := 0 |}, w_running)
  ∧ gameColl w_running_later = gameColl w_running
  ∧ verifyToken (scoped "jo" 2 Admin) 2 [Host; Admin]
    = Ok (with_role Admin (with_gameId 2 (claims "jo")))
  ∧ ∃ w3 g3,
      stopGame (scoped "jo" 2 Admin) (Hex 2) (Some true) w_running_later
      = (Ok {| conf_startTime := 1700000;
               conf_endTime := clock w_running_later |}, w3)
      ∧ gameColl w3 !! 2%positive = Some g3
      ∧ state g3 = Ended
      ∧ startTime (settings g3) = 1700000
      ∧ endTime (settings g3) = clock w_running_later.
Proof.
  assert (Hrun : startGame (scoped "hana" 2 Host) (Hex 2) None None w_staffed
                 = (Ok {| conf_startTime := 1700000; conf_endTime := 0 |},
                    w_running)) by (vm_compute; reflexivity).
  assert (Hsame : gameColl w_running_later = gameColl w_running)
    by reflexivity.
  assert (Hv : verifyToken (scoped "jo" 2 Admin) 2 [Host; Admin]
               = Ok (with_role Admin (with_gameId 2 (claims "jo"))))
    by (vm_compute; reflexivity).
  split; [exact Hrun |]. split; [exact Hsame |]. split; [exact Hv |].
  exact (startGame_then_stopGame (scoped "hana" 2 Host) 2%positive None None
           (scoped "jo" 2 Admin) _ (Some true) w_staffed _ w_running
           w_running_later Hrun Hsame Hv).
Defined.

Lemma deleteGame_cascade_witness :
  verifyToken (scoped "hana" 2 Host) 2 [Host; Admin]
  = Ok (with_role Host (with_gameId 2 (claims "hana")))
  ∧ (∃ g, gameColl w_two_tables !! 2%positive = Some g
          ∧ state g ≠ Running
          ∧ playerColl w_two_tables !! 3%positive = Some ivo_record
          ∧ playerColl w_two_tables !! 5%positive = Some kim_record
          ∧ ∃ w',
              deleteGame (scoped "hana" 2 Host) (Hex 2) w_two_tables
              = (Ok g, w')
              ∧ gameColl w' !! 2%positive = None
              ∧ gameColl w' !! 4%positive = gameColl w_two_tables !! 4%positive
              ∧ playerColl w' !! 3%positive = None
              ∧ playerColl w' !! 5%positive = Some kim_record).
Proof.
  assert (Hv : verifyToken (scoped "hana" 2 Host) 2 [Host; Admin]
               = Ok (with_role Host (with_gameId 2 (claims "hana"))))
    by (vm_compute; reflexivity).
  split; [exact Hv |].
  exists full_ended_game.
  assert (Hg : gameColl w_two_tables !! 2%positive = Some full_ended_game)
    by (vm_compute; reflexivity).
  assert (Hst : state full_ended_game ≠ Running) by discriminate.
  assert (Hivo : playerColl w_two_tables !! 3%positive = Some ivo_record)
    by (vm_compute; reflexivity).
  assert (Hkim : playerColl w_two_tables !! 5%positive = Some kim_record)
    by (vm_compute; reflexivity).
  destruct (deleteGame_cascade (scoped "hana" 2 Host) 2%positive w_two_tables
              _ _ Hv Hg Hst)
    as (w' & Hrun & Hgone & Hothers & Hplayers & _).
  split; [exact Hg |]. split; [exact Hst |]. split; [exact Hivo |].
  split; [exact Hkim |].
  exists w'. split; [exact Hrun |]. split; [exact Hgone |].
  split; [by apply Hothers |]. split.
  - destruct (playerColl w' !! 3%positive) as [p|] eqn:Hp; [| done].
    apply Hplayers in Hp as [Hp Hne]. rewrite Hivo in Hp.
    injection Hp as <-. by destruct Hne.
  - apply Hplayers. split; [exact Hkim | discriminate].
Defined.


Lemma call_start_staffed : call w_staffed w_running.
Proof.
  apply (call_startGame (scoped "hana" 2 Host) (Hex 2) None None
           (Ok {| conf_startTime := 1700000; conf_endTime := 0 |})).
  vm_compute; reflexivity.
Qed.


Lemma calls_to_full_table : calls new_world w_full.
Proof.
  apply (calls_more new_world w_created w_full).
  - apply (call_createGame (identity "hana") open_settings quiz
             (Ok {| creds := upgradeCredentials (claims "hana") 2 Host;
                    gameid := Hex 2; taskids := [Hex 1] |})).
    vm_compute; reflexivity.
  - apply (calls_more w_created w_full w_full); [| apply calls_done].
    apply (call_joinGame (identity "ivo") (Hex 2) AsPlayer None
             (Ok (upgradeCredentials (claims "ivo") 2 Player))).
    vm_compute; reflexivity.
Qed.

Lemma all_games_new_world (P : GameSchema → Prop) : all_games P new_world.
Proof. intros id g Hg. simpl in Hg. by rewrite lookup_empty in Hg. Qed.


Lemma calls_keep_host_tasks_settings_witness :
  call w_staffed w_running
  ∧ gameColl w_staffed !! 2%positive = Some staffed_game
  ∧ gameColl w_running !! 2%positive = Some running_game
  ∧ host running_game = host staffed_game
  ∧ tasks running_game = tasks staffed_game
  ∧ sans_timestamps (settings running_game)
    = sans_timestamps (settings staffed_game).
Proof.
  assert (Hg : gameColl w_staffed !! 2%positive = Some staffed_game)
    by (vm_compute; reflexivity).
  assert (Hg' : gameColl w_running !! 2%positive = Some running_game)
    by (vm_compute; reflexivity).
  split; [exact call_start_staffed |]. split; [exact Hg |].
  split; [exact Hg' |].
  exact (calls_keep_host_tasks_settings w_staffed w_running 2%positive _ _
           call_start_staffed Hg Hg').
Defined.


Lemma calls_keep_rosters_exclusive_witness :
  calls new_world w_full
  ∧ all_games roster_exclusive new_world
  ∧ all_games roster_exclusive w_full.
Proof.
  split; [exact calls_to_full_table |].
  split; [exact (all_games_new_world roster_exclusive) |].
  exact (calls_keep_rosters_exclusive new_world w_full calls_to_full_table
           (all_games_new_world roster_exclusive)).
Defined.

Lemma calls_to_staffed_table : calls new_world w_staffed.
Proof.
  apply (calls_more new_world w_created w_staffed).
  - apply (call_createGame (identity "hana") open_settings quiz
             (Ok {| creds := upgradeCredentials (claims "hana") 2 Host;
                    gameid := Hex 2; taskids := [Hex 1] |})).
    vm_compute; reflexivity.
  - apply (calls_more w_created w_staffed w_staffed); [| apply calls_done].
    apply (call_joinGame (identity "jo") (Hex 2) AsAdmin
             (Some "letmein"%string)
             (Ok (upgradeCredentials (claims "jo") 2 Admin))).
    vm_compute; reflexivity.
Qed.

Lemma calls_keep_admins_bounded_witness :
  calls new_world w_staffed
  ∧ all_games admins_bounded new_world
  ∧ all_games admins_bounded w_staffed.
Proof.
  split; [exact calls_to_staffed_table |].
  split; [exact (all_games_new_world admins_bounded) |].
  exact (calls_keep_admins_bounded new_world w_staffed calls_to_staffed_table
           (all_games_new_world admins_bounded)).
Defined.

Lemma calls_keep_game_count_bounded_witness :
  calls new_world w_full
  ∧ Z.of_nat (size (gameColl new_world)) ≤ MAX_GAMES
  ∧ Z.of_nat (size (gameColl w_full)) ≤ MAX_GAMES.
Proof.
  assert (Hsize : Z.of_nat (size (gameColl new_world)) ≤ MAX_GAMES)
    by (vm_compute; discriminate).
  split; [exact calls_to_full_table |]. split; [exact Hsize |].
  exact (calls_keep_game_count_bounded new_world w_full calls_to_full_table
           Hsize).
Defined.

End MoreScenarios.
